(** * CloudPulse Monitor: the client-side data-access layer and the services table

    A shallow embedding of
    - [frontend/src/utils/constants.ts]  (REQUEST_CONFIG, API_ENDPOINTS),
    - [frontend/src/utils/api.ts]        (ApiClient: shouldRetry, withRetry, request),
    - [frontend/src/types/index.ts]      (getMetricStatus, getHealthStatus,
                                          transformMetricsResponse),
    - [frontend/src/hooks/useApi.ts]     (DEFAULT_QUERY_OPTIONS, useMetrics, useServices,
                                          useLogs, useSystemStatus),
    - [backend/init-db.sql]              (the services table and its constraints).

    Numbers.  HTTP statuses, retry counters and delays are JavaScript
    numbers holding integers; they are modelled as [Z].  The limit and offset
    of a logs query and the numbers of a JSON body can be any number; they are
    modelled by [Js.Number], which keeps what the code observes of a number.
    Metric values are finite doubles that are only ever compared against
    integer thresholds; they are modelled as rationals [Q], on which the
    comparison is exact. *)

From Stdlib Require Import ZArith QArith Lia Bool List Ascii String.
From stdpp Require Import base option list strings pretty gmap.
From Equations Require Import Equations.

Local Open Scope Z_scope.

(* ===================================================================== *)
(** ** constants.ts *)
(* ===================================================================== *)

Module Constants.

Definition API_BASE_URL : string := "http://localhost:8000/api".

Module API_ENDPOINTS.
Definition METRICS  : string := "/metrics".
Definition SERVICES : string := "/services".
Definition LOGS     : string := "/logs/".
Definition STATUS   : string := "/status".
End API_ENDPOINTS.

Module REQUEST_CONFIG.
Definition TIMEOUT        : Z := 10000.
Definition RETRY_ATTEMPTS : Z := 3.
Definition RETRY_DELAY    : Z := 1000.
End REQUEST_CONFIG.

End Constants.

(* ===================================================================== *)
(** ** JavaScript values, as far as the code looks at them *)
(* ===================================================================== *)

Module Js.

(** A number, by what the code does with one: it tests whether it is truthy
    and it prints it.  [Integer n] is an integer below 10^21 in magnitude,
    which [Number.prototype.toString] prints with all its decimal digits;
    [0] and [-0] are both [Integer 0].  [NaN] is falsy.  [Other printed] is
    any other number (a fraction, an integer of 10^21 or more in magnitude,
    plus or minus Infinity): it is never zero, and [printed] is the text
    that [toString] gives for it. *)
Inductive Number : Type :=
| Integer (n : Z) (below : (Z.abs n <? 10 ^ 21) = true)
| NaN
| Other (printed : string).

Definition number_truthy (n : Number) : bool :=
  match n with
  | Integer k _ => negb (k =? 0)
  | NaN => false
  | Other _ => true
  end.

Definition number_toString (n : Number) : string :=
  match n with
  | Integer k _ => pretty k
  | NaN => "NaN"
  | Other printed => printed
  end.

(** What [JSON.parse] can give.  The members of an object are kept in the
    order of the text; a name given twice takes its last value. *)
#[local] Unset Elimination Schemes.
Inductive Json : Type :=
| JNull
| JBool (b : bool)
| JNumber (n : Number)
| JString (s : string)
| JArray (items : list Json)
| JObject (members : list (string * Json)).
#[local] Set Elimination Schemes.

(** A value that may be [undefined]. *)
Abbreviation Value := (option Json).

Definition truthy (v : Value) : bool :=
  match v with
  | None => false
  | Some JNull => false
  | Some (JBool b) => b
  | Some (JNumber n) => number_truthy n
  | Some (JString s) => negb (String.eqb s "")
  | Some (JArray _) => true
  | Some (JObject _) => true
  end.

(** [a || b] *)
Definition js_or (a b : Value) : Value :=
  if truthy a then a else b.

Fixpoint member (key : string) (members : list (string * Json)) : Value :=
  match members with
  | [] => None
  | (name, value) :: rest =>
      match member key rest with
      | Some later => Some later
      | None => if String.eqb name key then Some value else None
      end
  end.

(** [v.key] on a value that is neither [null] nor [undefined], for the keys
    the client reads ([error], [message], [code], [details]): an object
    gives its member, anything else gives [undefined]. *)
Definition get (v : Json) (key : string) : Value :=
  match v with
  | JObject members => member key members
  | _ => None
  end.

(** [v?.key] *)
Definition get_optional (v : Value) (key : string) : Value :=
  match v with
  | None => None
  | Some JNull => None
  | Some v => get v key
  end.

(** [ToString]: [None] when the conversion throws a TypeError, which it
    does on an object that has a member named [toString] (the member hides
    [Object.prototype.toString] and is not callable, and [valueOf] gives no
    primitive).  An array prints its items separated by commas, a [null]
    item as nothing. *)
Fixpoint toString (v : Json) : option string :=
  match v with
  | JNull => Some "null"
  | JBool true => Some "true"
  | JBool false => Some "false"
  | JNumber n => Some (number_toString n)
  | JString s => Some s
  | JArray items =>
      (fix join (items : list Json) : option string :=
         match items with
         | [] => Some ""
         | item :: rest =>
             first ← match item with
                     | JNull => Some ""
                     | _ => toString item
                     end;
             match rest with
             | [] => Some first
             | _ :: _ => others ← join rest; Some (first +:+ "," +:+ others)
             end
         end) items
  | JObject members =>
      match member "toString" members with
      | Some _ => None
      | None => Some "[object Object]"
      end
  end.

End Js.

(* ===================================================================== *)
(** ** api.ts *)
(* ===================================================================== *)

Module Api.
Import Constants.

(** What an [operation] can throw.  [ApiError] and [NetworkError] are the two
    classes of api.ts; [OtherError] stands for any other thrown value
    (the [return false] line of [shouldRetry]). *)
Inductive ClientError : Type :=
| ApiError (message : string) (status : Z) (code : Js.Value) (details : Js.Value)
| NetworkError (message : string)
| OtherError (message : string).

(** A settled promise. *)
Inductive Outcome (T : Type) : Type :=
| Resolved (value : T)
| Rejected (error : ClientError).
Arguments Resolved {T} value.
Arguments Rejected {T} error.

(** The observable effects of the client: how many times the operation was
    invoked, and the delays handed to [setTimeout], oldest first. *)
Record World : Type := mkWorld { calls : nat; timers : list Z }.

Definition invoke (w : World) : World := mkWorld (S (calls w)) (timers w).
Definition setTimeout (delay : Z) (w : World) : World :=
  mkWorld (calls w) (timers w ++ [delay]).

(** An operation is a scripted server: the outcome of its k-th invocation
    (counting from 0). *)
Definition Operation (T : Type) : Type := nat -> Outcome T.

Definition inspect {A} (a : A) : {b : A | a = b} := exist _ a eq_refl.

(** [this.defaultTimeout] and [this.defaultRetries], set by the constructor
    from REQUEST_CONFIG. *)
Definition defaultTimeout : Z := REQUEST_CONFIG.TIMEOUT.
Definition defaultRetries : Z := REQUEST_CONFIG.RETRY_ATTEMPTS.

(** [shouldRetry(error)] *)
Definition shouldRetry (error : ClientError) : bool :=
  match error with
  | NetworkError _ => true
  | ApiError _ status _ _ => 500 <=? status
  | OtherError _ => false
  end.

(** [withRetry(operation, retries)], for an integer [retries]: the default
    RETRY_ATTEMPTS or an integer [config.retries].  The recursion stops
    because a retry is only made when [retries > 0] and it is made with
    [retries - 1]. *)
Equations? withRetry {T} (operation : Operation T) (retries : Z) (w : World)
  : Outcome T * World by wf (Z.to_nat retries) lt :=
  withRetry operation retries w with operation (calls w) => {
    | Resolved value := (Resolved value, invoke w);
    | Rejected error with inspect ((0 <? retries) && shouldRetry error) => {
        | exist _ true _ :=
            let delay := REQUEST_CONFIG.RETRY_DELAY * (defaultRetries - retries + 1) in
            withRetry operation (retries - 1) (setTimeout delay (invoke w));
        | exist _ false _ := (Rejected error, invoke w) } }.
Proof.
  match goal with
  | H : _ && _ = true |- _ => apply andb_true_iff in H as [Hpos _]
  end.
  apply Z.ltb_lt in Hpos. lia.
Qed.

(** The [delay] that [withRetry] computes when it still has [retries] in
    hand, and the delays of [n] retries in a row starting from there. *)
Definition backoff (retries : Z) : Z :=
  REQUEST_CONFIG.RETRY_DELAY * (defaultRetries - retries + 1).
Definition backoffs (retries : Z) (n : nat) : list Z :=
  (fun k => backoff (retries - Z.of_nat k)) <$> seq 0 n.

(** *** The transport under [request] *)

(** The body of a non-2xx response as [parseErrorResponse] reads it. *)
Inductive ErrorBody : Type :=
| JsonBody (errorData : Js.Json)       (* content-type includes application/json *)
| TextBody (text : string)             (* any other content type *)
| BrokenBody.                          (* reading the body throws *)

Record Response (T : Type) : Type := mkResponse {
  status     : Z;
  statusText : string;
  errorBody  : ErrorBody;
  data       : option T }.             (* None: parsing the payload throws *)
Arguments mkResponse {T}.
Arguments status {T}.
Arguments statusText {T}.
Arguments errorBody {T}.
Arguments data {T}.

(** [Response.ok]: the status is in the range 200-299. *)
Definition ok {T} (response : Response T) : bool :=
  (200 <=? status response) && (status response <=? 299).

(** What [fetch] does under the abort controller. *)
Inductive FetchResult (T : Type) : Type :=
| FetchResponse (response : Response T)
| FetchAbortError                       (* the timeout aborted the request *)
| FetchError (message : string)         (* fetch threw another Error *)
| FetchThrown.                          (* fetch threw a non-Error value *)
Arguments FetchResponse {T}.
Arguments FetchAbortError {T}.
Arguments FetchError {T}.
Arguments FetchThrown {T}.

(** [fetchWithTimeout(url, config)] *)
Definition fetchWithTimeout {T} (r : FetchResult T) : ClientError + Response T :=
  match r with
  | FetchResponse response => inr response
  | FetchAbortError => inl (NetworkError "Request timeout")
  | FetchError message => inl (NetworkError message)
  | FetchThrown => inl (NetworkError "Unknown network error")
  end.

(** A call that returns a value or throws. *)
Inductive Completion (A : Type) : Type :=
| Return (value : A)
| Throw (thrown : ClientError).
Arguments Return {A} value.
Arguments Throw {A} thrown.

(** The TypeError of the engine, whatever its message. *)
Definition TypeError : ClientError := OtherError "TypeError".

(** [errorData] after the [try] block of [parseErrorResponse]. *)
Definition errorData {T} (response : Response T) : Js.Json :=
  match errorBody response with
  | JsonBody errorData => errorData
  | TextBody text => Js.JObject [("message", Js.JString text)]
  | BrokenBody => Js.JObject [("message", Js.JString "Failed to parse error response")]
  end.

(** [parseErrorResponse(response)].  Reading [errorData.error] throws when
    the body is the JSON [null], and [new ApiError(message, ...)] throws
    when [message] cannot be converted to a string; both happen outside the
    [try] block. *)
Definition parseErrorResponse {T} (response : Response T) : Completion ClientError :=
  match errorData response with
  | Js.JNull => Throw TypeError
  | errorData =>
      let error := Js.get errorData "error" in
      let message :=
        Js.js_or (Js.js_or (Js.js_or (Js.get_optional error "message")
                                     (Js.get errorData "message"))
                           (Some (Js.JString (statusText response))))
                 (Some (Js.JString "Unknown error")) in
      let code := Js.js_or (Js.get_optional error "code") (Js.get errorData "code") in
      let details :=
        Js.js_or (Js.get_optional error "details") (Js.get errorData "details") in
      match message with
      | Some message =>
          match Js.toString message with
          | Some text => Return (ApiError text (status response) code details)
          | None => Throw TypeError
          end
      | None => Return (ApiError "" (status response) code details)
      end
  end.

(** [response.statusText || 'Unknown error']: the message when neither the
    body's [error.message] nor its [message] is truthy. *)
Definition fallbackMessage {T} (response : Response T) : string :=
  if String.eqb (statusText response) "" then "Unknown error" else statusText response.

(** The operation that [request] hands to [withRetry]: one fetch, classified. *)
Definition attempt {T} (r : FetchResult T) : Outcome (T * Z * string) :=
  match fetchWithTimeout r with
  | inl error => Rejected error
  | inr response =>
      if negb (ok response)
      then match parseErrorResponse response with
           | Return error => Rejected error
           | Throw thrown => Rejected thrown
           end
      else match data response with
           | Some d => Resolved (d, status response, statusText response)
           | None => Rejected (ApiError "Failed to parse response" (status response) None None)
           end
  end.

(** [request(endpoint, config)]: [config.retries] defaults to
    [this.defaultRetries].  The server is a script of fetch results. *)
Definition request {T} (server : nat -> FetchResult T) (retries : option Z) (w : World)
  : Outcome (T * Z * string) * World :=
  withRetry (fun k => attempt (server k)) (default defaultRetries retries) w.

(** [get(endpoint, config)] *)
Definition get {T} (server : nat -> FetchResult T) (retries : option Z) (w : World)
  : Outcome (T * Z * string) * World :=
  request server retries w.

(** A server none of whose answers ends the loop: every attempt is a
    retryable failure. *)
Definition always_retryable {T} (server : nat -> FetchResult T) : Prop :=
  forall k, exists error, attempt (server k) = Rejected error /\ shouldRetry error = true.

(** A fresh client: nothing invoked, no timer armed. *)
Definition idle : World := mkWorld 0 [].

End Api.

(* ===================================================================== *)
(** ** types/index.ts *)
(* ===================================================================== *)

Module Types.

Inductive Status : Type := healthy | warning | critical.
Inductive Trend : Type := up | down | stable.

Record Metric : Type := mkMetric {
  name      : string;
  value     : Q;
  unit_     : string;
  status    : Status;
  trend     : Trend;
  timestamp : option string }.

Record MetricsApiResponse : Type := mkMetricsApiResponse {
  cpu_usage       : Q;
  memory_usage    : Q;
  network_traffic : Q;
  container_count : Q;
  overall_health  : Q;
  response_timestamp : string }.

(** [a > b] on numbers. *)
Definition gt (a b : Q) : bool := negb (Qle_bool a b).

(** [getMetricStatus(value, criticalThreshold, warningThreshold)] *)
Definition getMetricStatus (value criticalThreshold warningThreshold : Q) : Status :=
  if gt value criticalThreshold then critical
  else if gt value warningThreshold then warning
  else healthy.

(** [getHealthStatus(value)] *)
Definition getHealthStatus (value : Q) : Status :=
  if gt value 90 then healthy
  else if gt value 70 then warning
  else critical.

(** [transformMetricsResponse(apiResponse)] *)
Definition transformMetricsResponse (apiResponse : MetricsApiResponse) : list Metric :=
  [ {| name := "CPU Usage";
       value := cpu_usage apiResponse;
       unit_ := "%";
       status := getMetricStatus (cpu_usage apiResponse) 80 60;
       trend := stable;
       timestamp := Some (response_timestamp apiResponse) |};
    {| name := "Memory Usage";
       value := memory_usage apiResponse;
       unit_ := "%";
       status := getMetricStatus (memory_usage apiResponse) 85 70;
       trend := stable;
       timestamp := Some (response_timestamp apiResponse) |};
    {| name := "Network Traffic";
       value := network_traffic apiResponse;
       unit_ := "MB/s";
       status := if gt (network_traffic apiResponse) 1000 then warning else healthy;
       trend := stable;
       timestamp := Some (response_timestamp apiResponse) |};
    {| name := "Container Count";
       value := container_count apiResponse;
       unit_ := "containers";
       status := healthy;
       trend := stable;
       timestamp := Some (response_timestamp apiResponse) |};
    {| name := "Overall Health";
       value := overall_health apiResponse;
       unit_ := "%";
       status := getHealthStatus (overall_health apiResponse);
       trend := stable;
       timestamp := Some (response_timestamp apiResponse) |} ].

(** The strict ordering critical > warning > healthy, as a rank. *)
Definition severity (s : Status) : nat :=
  match s with
  | healthy => 0
  | warning => 1
  | critical => 2
  end.

(** Following the specification's words, for comparison with the code: the
    trend of a new value against the previous one, [epsilon] being the small
    tolerance the specification leaves open. *)
Definition trend_by_comparison (epsilon previous current : Q) : Trend :=
  if gt (current - previous) epsilon then up
  else if gt (previous - current) epsilon then down
  else stable.

End Types.

(* ===================================================================== *)
(** ** hooks/useApi.ts *)
(* ===================================================================== *)

Module Hooks.
Import Constants.

Module QUERY_KEYS.
Definition METRICS  : list string := ["metrics"].
Definition SERVICES : list string := ["services"].
Definition LOGS     : list string := ["logs"].
Definition STATUS   : list string := ["status"].
End QUERY_KEYS.

(** The part of React Query's options that the hooks set.  A field left
    [None] is a key that is absent from the object. *)
Record QueryOptions : Type := mkQueryOptions {
  refetchInterval : option Z;
  staleTime       : option Z;
  gcTime          : option Z;
  enabled         : option bool }.

Definition no_options : QueryOptions := mkQueryOptions None None None None.

(** Object spread [{ ...a, ...b }]: the keys of [b] win. *)
Definition over {A} (b a : option A) : option A :=
  match b with
  | Some x => Some x
  | None => a
  end.
Definition spread (a b : QueryOptions) : QueryOptions :=
  {| refetchInterval := over (refetchInterval b) (refetchInterval a);
     staleTime := over (staleTime b) (staleTime a);
     gcTime := over (gcTime b) (gcTime a);
     enabled := over (enabled b) (enabled a) |}.

Module DEFAULT_QUERY_OPTIONS.
Definition staleTime : Z := 30 * 1000.
Definition gcTime : Z := 5 * 60 * 1000.
(** [retry(failureCount, error)] *)
Definition retry (failureCount : Z) (error : Api.ClientError) : bool :=
  match error with
  | Api.ApiError _ status _ _ =>
      if (400 <=? status) && (status <? 500) then false else failureCount <? 3
  | _ => failureCount <? 3
  end.
(** [retryDelay(attemptIndex)] *)
Definition retryDelay (attemptIndex : Z) : Z :=
  Z.min (1000 * 2 ^ attemptIndex) 30000.
Definition options : QueryOptions :=
  mkQueryOptions None (Some staleTime) (Some gcTime) None.
End DEFAULT_QUERY_OPTIONS.

(** What a hook hands to [useQuery]: the key, the endpoint its [queryFn]
    fetches, and the merged options. *)
Record LogsParams : Type := mkLogsParams {
  limit   : option Js.Number;
  level   : option string;
  service : option string;
  offset  : option Js.Number }.

Record Query : Type := mkQuery {
  queryKey  : list string;
  keyParams : option LogsParams;     (* the [params] object [useLogs] adds to its key *)
  endpoint  : string;
  options   : QueryOptions }.

Definition with_interval (interval : Z) (options : option QueryOptions) : QueryOptions :=
  spread (spread (mkQueryOptions (Some interval) None None None)
                 DEFAULT_QUERY_OPTIONS.options)
         (default no_options options).

(** [useMetrics(options)] *)
Definition useMetrics (options : option QueryOptions) : Query :=
  {| queryKey := QUERY_KEYS.METRICS;
     keyParams := None;
     endpoint := API_ENDPOINTS.METRICS;
     options := with_interval 5000 options |}.

(** [useServices(options)] *)
Definition useServices (options : option QueryOptions) : Query :=
  {| queryKey := QUERY_KEYS.SERVICES;
     keyParams := None;
     endpoint := API_ENDPOINTS.SERVICES;
     options := with_interval 10000 options |}.

(** *** URLSearchParams *)

(** The entries of a [URLSearchParams], in insertion order. *)
Definition URLSearchParams : Type := list (string * string).

Definition append (name value : string) (queryParams : URLSearchParams) : URLSearchParams :=
  queryParams ++ [(name, value)].

(** The application/x-www-form-urlencoded serializer behind
    [URLSearchParams.prototype.toString].  A string here is the sequence of
    the UTF-8 bytes of the text that [append] has stored (a USVString: what
    [append] does to a lone surrogate of a JavaScript string happens before
    and is not part of this function): ASCII letters and digits and [*-._]
    are kept, a space becomes [+], every other byte becomes [%XX]. *)
Definition kept (c : ascii) : bool :=
  let n := nat_of_ascii c in
  ((48 <=? n) && (n <=? 57) || (65 <=? n) && (n <=? 90) || (97 <=? n) && (n <=? 122)
   || (n =? 42) || (n =? 45) || (n =? 46) || (n =? 95))%nat.

Definition hex_digit (n : nat) : ascii :=
  match String.get n "0123456789ABCDEF" with
  | Some c => c
  | None => "0"%char
  end.

Definition encode_byte (c : ascii) : string :=
  if kept c then String c ""
  else if Ascii.eqb c " " then "+"
  else String "%" (String (hex_digit (nat_of_ascii c / 16))
                  (String (hex_digit (nat_of_ascii c mod 16)) "")).

Fixpoint urlencode (s : string) : string :=
  match s with
  | EmptyString => ""
  | String c rest => encode_byte c +:+ urlencode rest
  end.

Fixpoint serialize (queryParams : URLSearchParams) : string :=
  match queryParams with
  | [] => ""
  | [(name, value)] => urlencode name +:+ "=" +:+ urlencode value
  | (name, value) :: rest =>
      urlencode name +:+ "=" +:+ urlencode value +:+ "&" +:+ serialize rest
  end.

(** [Number.prototype.toString] *)
Definition toString (n : Js.Number) : string := Js.number_toString n.

(** [if (x)] on an optional number and on an optional string: [undefined],
    [0], [NaN] and the empty string are falsy, every other value is truthy. *)
Definition truthy_number (n : option Js.Number) : bool :=
  match n with
  | Some n => Js.number_truthy n
  | None => false
  end.
Definition truthy_string (s : option string) : bool :=
  match s with
  | Some s => negb (String.eqb s "")
  | None => false
  end.

(** The [queryParams] that [useLogs] builds from [params]. *)
Definition logsQueryParams (params : LogsParams) : URLSearchParams :=
  let queryParams : URLSearchParams := [] in
  let queryParams :=
    if truthy_number (limit params)
    then append "limit" (toString (default Js.NaN (limit params))) queryParams
    else queryParams in
  let queryParams :=
    if truthy_string (level params)
    then append "level" (default "" (level params)) queryParams
    else queryParams in
  let queryParams :=
    if truthy_string (service params)
    then append "service" (default "" (service params)) queryParams
    else queryParams in
  let queryParams :=
    if truthy_number (offset params)
    then append "offset" (toString (default Js.NaN (offset params))) queryParams
    else queryParams in
  queryParams.

Definition no_params : LogsParams := mkLogsParams None None None None.

(** [useLogs(params, options)] *)
Definition useLogs (params : option LogsParams) (options : option QueryOptions) : Query :=
  let params := default no_params params in
  let queryString := serialize (logsQueryParams params) in
  let endpoint :=
    if negb (String.eqb queryString "")
    then API_ENDPOINTS.LOGS +:+ "?" +:+ queryString
    else API_ENDPOINTS.LOGS in
  {| queryKey := QUERY_KEYS.LOGS;
     keyParams := Some params;
     endpoint := endpoint;
     options := with_interval 15000 options |}.

(** [useSystemStatus(options)] *)
Definition useSystemStatus (options : option QueryOptions) : Query :=
  {| queryKey := QUERY_KEYS.STATUS;
     keyParams := None;
     endpoint := API_ENDPOINTS.STATUS;
     options := with_interval 30000 options |}.

(** [checkConnection()] of [useConnectionStatus]: one GET of the status
    endpoint with the default configuration; [true] when it resolves, [false]
    when it throws. *)
Definition checkConnection {T} (server : nat -> Api.FetchResult T) (w : Api.World)
  : bool * Api.World :=
  match Api.get server None w with
  | (Api.Resolved _, w') => (true, w')
  | (Api.Rejected _, w') => (false, w')
  end.

End Hooks.

(* ===================================================================== *)
(** ** pages/Logs.tsx *)
(* ===================================================================== *)

Module LogsPage.

(** [filter || undefined]: an empty filter is passed as [undefined]. *)
Definition or_undefined (filter : string) : option string :=
  if negb (String.eqb filter "") then Some filter else None.

(** The query the page makes for its two filter states:
    [useLogs({ limit: 50, level: levelFilter || undefined,
               service: serviceFilter || undefined })]. *)
Definition logsQuery (levelFilter serviceFilter : string) : Hooks.Query :=
  Hooks.useLogs
    (Some {| Hooks.limit := Some (Js.Integer 50 eq_refl);
             Hooks.level := or_undefined levelFilter;
             Hooks.service := or_undefined serviceFilter;
             Hooks.offset := None |})
    None.

(** [(levelFilter || serviceFilter)]: whether the page offers "Clear filters". *)
Definition hasFilters (levelFilter serviceFilter : string) : bool :=
  negb (String.eqb levelFilter "") || negb (String.eqb serviceFilter "").

(** [clearFilters()]: the filter state it leaves. *)
Definition clearFilters : string * string := ("", "").

End LogsPage.

(* ===================================================================== *)
(** ** The server's side of a logs request *)
(* ===================================================================== *)

Module Server.

(** Modelled from the spec: the logs endpoint of the server, which is not
    among the sources.  The specification gives
    [GET logs?limit&level&service&offset], "limit bounds result size
    (reference default 50)": the server takes a parameter from the entries
    the query string carries, the first one of that name, and a parameter
    the query string does not carry takes the server's default. *)
Fixpoint received (key : string) (queryParams : Hooks.URLSearchParams) : option string :=
  match queryParams with
  | [] => None
  | (name, value) :: rest =>
      if String.eqb name key then Some value else received key rest
  end.

Definition effective (serverDefault : string) (key : string)
    (queryParams : Hooks.URLSearchParams) : string :=
  default serverDefault (received key queryParams).

End Server.

(* ===================================================================== *)
(** ** main.tsx *)
(* ===================================================================== *)

Module Main.

(** [String.prototype.includes] *)
Definition includes (s search : string) : bool :=
  match String.index 0 search s with
  | Some _ => true
  | None => false
  end.

(** The title stored in the document after main.tsx has set it. *)
Definition initialTitle : string := "CloudPulse Monitor".

(** The overriding setter of [document.title], as a function from the
    assigned value to the value handed to the original setter. *)
Definition setTitle (newTitle : string) : string :=
  if includes newTitle "CloudPulse" || String.eqb newTitle "CloudPulse Monitor"
  then newTitle
  else "CloudPulse Monitor".

(** The overriding getter. *)
Definition getTitle (stored : string) : string := "CloudPulse Monitor".

(** The stored title after a series of assignments, oldest first. *)
Definition assignTitles (assigned : list string) (stored : string) : string :=
  fold_left (fun _ newTitle => setTitle newTitle) assigned stored.

End Main.

(* ===================================================================== *)
(** ** init-db.sql: the services table *)
(* ===================================================================== *)

Module Db.

(** A stored row of [services], without its key.  [uptime] is a
    DECIMAL(5,2): an integer number of hundredths; it is the one nullable
    column among those modelled (NULL is [None]).  Timestamps are instants
    on an integer clock. *)
Record Service : Type := mkService {
  name         : string;
  status       : string;
  uptime       : option Z;
  last_checked : Z;
  created_at   : Z;
  updated_at   : Z }.

(** [id VARCHAR(50) PRIMARY KEY]: the table maps each id to its row. *)
Abbreviation Table := (gmap string Service).

(** Rounding half away from zero, as PostgreSQL rounds a numeric. *)
Definition round_half_away (q : Q) : Z :=
  Z.sgn (Qnum q) * ((2 * Z.abs (Qnum q) + Zpos (Qden q)) / (2 * Zpos (Qden q))).

(** Coercion of a numeric value to DECIMAL(5,2): rounded to two decimals;
    a result of 1000 or more in magnitude is a numeric field overflow. *)
Definition to_decimal_5_2 (q : Q) : option Z :=
  let hundredths := round_half_away (q * 100)%Q in
  if Z.abs hundredths <? 100000 then Some hundredths else None.

(** [CHECK (status IN ('online', 'degraded', 'offline'))] *)
Definition check_status (status : string) : bool :=
  bool_decide (status ∈ ["online"; "degraded"; "offline"]).

(** [CHECK (uptime >= 0.0 AND uptime <= 100.0)]: a CHECK rejects a row only
    when its condition is false, so a NULL uptime passes. *)
Definition check_uptime (uptime : option Z) : bool :=
  match uptime with
  | Some hundredths => (0 <=? hundredths) && (hundredths <=? 10000)
  | None => true
  end.

(** The VARCHAR lengths, counted in bytes, and the two CHECK constraints of
    the table.  A value longer than its column fails the statement here
    (PostgreSQL first drops trailing spaces in excess). *)
Definition constraints (id : string) (row : Service) : bool :=
  (String.length id <=? 50)%nat && (String.length (name row) <=? 100)%nat
  && (String.length (status row) <=? 20)%nat
  && check_status (status row) && check_uptime (uptime row).

(** The statements modelled: they assign the columns that init-db.sql
    assigns; [created_at] and [updated_at] are left to their defaults and to
    the trigger. *)
Inductive Statement : Type :=
(** INSERT INTO services (id, name, status, uptime, last_checked) VALUES (...) *)
| Insert (id name status : string) (uptime : option Q) (last_checked : Z)
(** the same with ON CONFLICT (id) DO UPDATE SET name = EXCLUDED.name, ...,
    updated_at = NOW(), as the seeding statement of init-db.sql *)
| Upsert (id name status : string) (uptime : option Q) (last_checked : Z)
(** UPDATE services SET ... WHERE id = ...; a column left [None] is not
    assigned, [uptime := Some None] assigns NULL *)
| Update (id : string) (status : option string) (uptime : option (option Q))
         (last_checked : option Z)
(** DELETE FROM services WHERE id = ... *)
| Delete (id : string).

(** The value stored for an uptime given in a statement; [None] when the
    statement fails with a numeric overflow. *)
Definition coerce_uptime (uptime : option Q) : option (option Z) :=
  match uptime with
  | Some q => Some <$> to_decimal_5_2 q
  | None => Some None
  end.

(** A row is stored only if it passes the constraints. *)
Definition store (id : string) (row : Service) (table : Table) : option Table :=
  if constraints id row then Some (<[id := row]> table) else None.

(** One statement executed at instant [now]; [None] when the statement
    fails, which leaves the table as it was.  The trigger
    [update_services_updated_at] stamps [updated_at] on every UPDATE. *)
Definition exec (now : Z) (statement : Statement) (table : Table) : option Table :=
  match statement with
  | Insert id name status uptime last_checked =>
      match table !! id with
      | Some _ => None
      | None =>
          stored ← coerce_uptime uptime;
          store id (mkService name status stored last_checked now now) table
      end
  | Upsert id name status uptime last_checked =>
      stored ← coerce_uptime uptime;
      match table !! id with
      | Some old =>
          store id (mkService name status stored last_checked (created_at old) now) table
      | None =>
          store id (mkService name status stored last_checked now now) table
      end
  | Update id status' uptime' last_checked' =>
      match table !! id with
      | Some old =>
          stored ← match uptime' with
                   | Some new => coerce_uptime new
                   | None => Some (uptime old)
                   end;
          store id (mkService (name old) (default (status old) status') stored
                              (default (last_checked old) last_checked')
                              (created_at old) now) table
      | None => Some table
      end
  | Delete id => Some (delete id table)
  end.

(** A session: statements with the instants at which they run, each in its
    own transaction, a failed one changing nothing. *)
Fixpoint run (session : list (Z * Statement)) (table : Table) : Table :=
  match session with
  | [] => table
  | (now, statement) :: rest => run rest (default table (exec now statement table))
  end.

(** The table as [CREATE TABLE] leaves it. *)
Definition created : Table := ∅.

(** The six services that init-db.sql inserts, run at instant [now]. *)
Definition seed (now : Z) : list (Z * Statement) :=
  [ (now, Upsert "api-gateway" "API Gateway" "online" (Some 99.98%Q) now);
    (now, Upsert "user-service" "User Service" "online" (Some 99.95%Q) now);
    (now, Upsert "payment-service" "Payment Service" "online" (Some 99.87%Q) now);
    (now, Upsert "notification-service" "Notification Service" "degraded" (Some 98.45%Q) now);
    (now, Upsert "analytics-service" "Analytics Service" "online" (Some 99.92%Q) now);
    (now, Upsert "file-storage" "File Storage" "online" (Some 99.99%Q) now) ].

(** Every stored row passes the constraints of the table. *)
Definition consistent (table : Table) : Prop :=
  forall id row, table !! id = Some row -> constraints id row = true.

(** The uptime of a row as a percentage. *)
Definition uptime_percent (row : Service) : option Q :=
  (fun hundredths => hundredths # 100) <$> uptime row.

End Db.

(* ===================================================================== *)
(** * Properties *)
(* ===================================================================== *)

(** ** The retry loop *)

Section RetryLoop.
Import Constants Api.
Context {T : Type} (operation : Operation T).

Lemma withRetry_resolved retries w value :
  operation (calls w) = Resolved value ->
  withRetry operation retries w = (Resolved value, invoke w).
Proof.
  intros H. rewrite withRetry_equation_1, H. reflexivity.
Qed.

Lemma withRetry_retry retries w error :
  operation (calls w) = Rejected error ->
  (0 <? retries) && shouldRetry error = true ->
  withRetry operation retries w =
  withRetry operation (retries - 1)
    (setTimeout (REQUEST_CONFIG.RETRY_DELAY * (defaultRetries - retries + 1)) (invoke w)).
Proof.
  intros H Hb. rewrite withRetry_equation_1, H. simpl.
  revert Hb. generalize ((0 <? retries) && shouldRetry error).
  intros b ->. reflexivity.
Qed.

Lemma withRetry_stop retries w error :
  operation (calls w) = Rejected error ->
  (0 <? retries) && shouldRetry error = false ->
  withRetry operation retries w = (Rejected error, invoke w).
Proof.
  intros H Hb. rewrite withRetry_equation_1, H. simpl.
  revert Hb. generalize ((0 <? retries) && shouldRetry error).
  intros b ->. reflexivity.
Qed.

(** What one run of the loop does, in full: it makes [n] retries, never
    more than the budget; the first [n] attempts fail with retryable errors;
    the delays armed are [backoff retries], [backoff (retries - 1)], ...;
    the outcome handed back is that of the last attempt, and it is either a
    success, a failure that is not retryable, or the failure that ran into
    the exhausted budget. *)
Lemma withRetry_run retries w :
  exists n : nat,
    Z.of_nat n <= Z.max 0 retries
    /\ calls (snd (withRetry operation retries w)) = (calls w + n + 1)%nat
    /\ timers (snd (withRetry operation retries w)) =
       timers w ++ backoffs retries n
    /\ fst (withRetry operation retries w) = operation (calls w + n)%nat
    /\ (forall k, (k < n)%nat ->
          exists error, operation (calls w + k)%nat = Rejected error
                        /\ shouldRetry error = true)
    /\ (forall error, operation (calls w + n)%nat = Rejected error ->
          shouldRetry error = true -> Z.of_nat n = Z.max 0 retries).
Proof.
  remember (Z.to_nat retries) as fuel eqn:Hfuel.
  revert retries w Hfuel.
  induction fuel as [fuel IH] using lt_wf_ind. intros retries w Hfuel.
  destruct (operation (calls w)) as [value | error] eqn:Hop.
  - exists 0%nat. rewrite (withRetry_resolved _ _ _ Hop). simpl.
    rewrite !Nat.add_0_r, app_nil_r, Hop.
    repeat split; try lia. congruence.
  - destruct ((0 <? retries) && shouldRetry error) eqn:Hb.
    + rewrite (withRetry_retry _ _ _ Hop Hb).
      apply andb_true_iff in Hb as [Hpos Hre]. apply Z.ltb_lt in Hpos.
      destruct (IH (Z.to_nat (retries - 1)) ltac:(lia) (retries - 1)
                   (setTimeout (backoff retries) (invoke w)) eq_refl)
        as (n & Hn & Hcalls & Htimers & Hfst & Hbefore & Hlast).
      fold (backoff retries).
      exists (S n). cbn [calls timers setTimeout invoke] in *.
      rewrite Hcalls, Htimers, Hfst, <- !Nat.add_succ_comm.
      split; [lia|]. split; [lia|]. split.
      { rewrite <- app_assoc. unfold backoffs. simpl. f_equal. f_equal.
        - f_equal. lia.
        - rewrite <- fmap_S_seq, <- list_fmap_compose. apply list_fmap_ext.
          intros _ k _. simpl. f_equal. lia. }
      split; [reflexivity|]. split.
      { intros [|k] Hk.
        - exists error. rewrite Nat.add_0_r. auto.
        - rewrite <- Nat.add_succ_comm. apply Hbefore. lia. }
      intros e He Hs. specialize (Hlast e He Hs). lia.
    + rewrite (withRetry_stop _ _ _ Hop Hb).
      exists 0%nat. simpl. rewrite !Nat.add_0_r, app_nil_r, Hop.
      repeat split; try lia.
      intros e He Hs. assert (e = error) by congruence. subst e.
      rewrite Hs, andb_true_r in Hb. apply Z.ltb_ge in Hb. lia.
Qed.
End RetryLoop.

Section Backoff.
Import Constants Api.

Lemma lookup_backoffs retries n k d :
  backoffs retries n !! k = Some d ->
  (k < n)%nat /\ d = backoff (retries - Z.of_nat k).
Proof.
  unfold backoffs. rewrite list_lookup_fmap. intros H.
  apply fmap_Some in H as (i & Hi & ->).
  apply lookup_seq in Hi as [-> Hlt]. simpl. auto.
Qed.

Lemma length_backoffs retries n : length (backoffs retries n) = n.
Proof. unfold backoffs. rewrite length_fmap. apply length_seq. Qed.

(** Whenever a retry is made there is budget in hand, so no delay exceeds
    the base delay times the default retry count. *)
Lemma backoff_ceiling retries :
  0 < retries -> backoff retries <= REQUEST_CONFIG.RETRY_DELAY * REQUEST_CONFIG.RETRY_ATTEMPTS.
Proof.
  unfold backoff, defaultRetries, REQUEST_CONFIG.RETRY_DELAY, REQUEST_CONFIG.RETRY_ATTEMPTS.
  lia.
Qed.
End Backoff.

Section Classification.
Import Constants Api.

Lemma shouldRetry_true error :
  shouldRetry error = true <->
  (exists message, error = NetworkError message)
  \/ (exists message status code details,
        error = ApiError message status code details /\ 500 <= status).
Proof.
  split.
  - destruct error as [m s c d | m | m]; simpl; intros H.
    + right. exists m, s, c, d. split; [reflexivity | lia].
    + left. eauto.
    + discriminate.
  - intros [[m ->] | (m & s & c & d & -> & Hs)]; simpl; [reflexivity | lia].
Qed.

Lemma shouldRetry_4xx message status code details :
  400 <= status < 500 -> shouldRetry (ApiError message status code details) = false.
Proof. simpl. lia. Qed.
End Classification.

Section ClientClaims.
Import Constants Api.

(** Against such a server the loop spends its whole budget. *)
Lemma request_spends_budget {T} (server : nat -> FetchResult T) retries w :
  always_retryable server ->
  calls (snd (request server retries w))
    = (calls w + Z.to_nat (default defaultRetries retries) + 1)%nat
  /\ timers (snd (request server retries w))
    = timers w ++ backoffs (default defaultRetries retries)
                           (Z.to_nat (default defaultRetries retries)).
Proof.
  intros Hall. unfold request.
  destruct (withRetry_run (fun k => attempt (server k))
              (default defaultRetries retries) w)
    as (n & Hn & Hcalls & Htimers & _ & _ & Hlast).
  destruct (Hall (calls w + n)%nat) as (e & He & Hs).
  specialize (Hlast e He Hs).
  assert (n = Z.to_nat (default defaultRetries retries)) as <- by lia.
  auto.
Qed.

(** Against C1 as stated.  A timeout is a NetworkError, hence classified
    retryable, and still it is not retried once no retry is left: a request
    issued with [retries: 0] stops after its single attempt, and under the
    default configuration the failure of the last attempt is handed to the
    caller. *)
Lemma C1_retryable_failure_not_retried :
  shouldRetry (NetworkError "Request timeout") = true
  /\ @get unit (fun _ => FetchAbortError) (Some 0) idle
     = (Rejected (NetworkError "Request timeout"), mkWorld 1 [])
  /\ @get unit (fun _ => FetchAbortError) None idle
     = (Rejected (NetworkError "Request timeout"), mkWorld 4 [1000; 2000; 3000]).
Proof. repeat split; vm_compute; reflexivity. Qed.

(** C1, amended.  For a failed attempt with [retries] retries in hand:
    the failure is classified retryable exactly when it is a NetworkError
    or an ApiError with status >= 500; another attempt follows exactly when
    [retries > 0] and the failure is retryable; a failure with a 4xx status
    is never retried, it is handed to the caller after this one attempt with
    no timer armed, and the query layer's [retry] refuses it as well. *)
Theorem C1_retry_iff_retryable_and_budget
    {T} (operation : Operation T) (retries : Z) (w : World) (error : ClientError) :
  operation (calls w) = Rejected error ->
  (shouldRetry error = true <->
     (exists message, error = NetworkError message)
     \/ (exists message status code details,
           error = ApiError message status code details /\ 500 <= status))
  /\ ((calls w + 1 < calls (snd (withRetry operation retries w)))%nat <->
        0 < retries /\ shouldRetry error = true)
  /\ (forall message status code details,
        error = ApiError message status code details -> 400 <= status < 500 ->
        withRetry operation retries w = (Rejected error, invoke w)
        /\ forall failureCount,
             Hooks.DEFAULT_QUERY_OPTIONS.retry failureCount error = false).
Proof.
  intros Hop. split; [apply shouldRetry_true|]. split.
  - destruct ((0 <? retries) && shouldRetry error) eqn:Hb.
    + rewrite (withRetry_retry _ _ _ _ Hop Hb).
      destruct (withRetry_run operation (retries - 1)
                  (setTimeout (backoff retries) (invoke w)))
        as (n & _ & Hcalls & _).
      fold (backoff retries). rewrite Hcalls. simpl.
      apply andb_true_iff in Hb as [Hpos Hre]. apply Z.ltb_lt in Hpos.
      split; [auto | lia].
    + rewrite (withRetry_stop _ _ _ _ Hop Hb). simpl.
      split; [lia|]. intros [Hpos Hre].
      rewrite Hre, andb_true_r in Hb. apply Z.ltb_ge in Hb. lia.
  - intros m s c d -> Hs. split.
    + apply withRetry_stop; [assumption|].
      rewrite (shouldRetry_4xx _ _ _ _ Hs). apply andb_false_r.
    + intros failureCount. simpl.
      replace (400 <=? s) with true by lia. replace (s <? 500) with true by lia.
      reflexivity.
Qed.

Lemma C1_retry_iff_retryable_and_budget_witness :
  withRetry (fun _ => Rejected (ApiError "Not Found" 404 None None) : Outcome unit)
            defaultRetries idle
  = (Rejected (ApiError "Not Found" 404 None None), invoke idle).
Proof.
  refine (proj1 (proj2 (proj2
    (C1_retry_iff_retryable_and_budget
       (fun _ => Rejected (ApiError "Not Found" 404 None None) : Outcome unit)
       defaultRetries idle (ApiError "Not Found" 404 None None) eq_refl))
    "Not Found" 404 None None eq_refl _)).
  lia.
Defined.

(** Against C2 as stated.  Under the default configuration a server that
    answers 503 every time is asked four times, not three. *)
Lemma C2_fourth_attempt_is_made :
  calls (snd (@get unit
                (fun _ => FetchResponse (mkResponse 503 "Service Unavailable" BrokenBody None))
                None idle)) = 4%nat.
Proof. vm_compute. reflexivity. Qed.

(** C2, amended.  A request issued with the default configuration makes at
    least one and at most four attempts (the first and RETRY_ATTEMPTS = 3
    retries); what it hands back is the outcome of the last attempt it made,
    unchanged; and when every attempt fails with a retryable error it makes
    exactly four attempts, so no fifth is ever made. *)
Theorem C2_default_budget_four_attempts
    {T} (server : nat -> FetchResult T) (w : World) :
  (calls w < calls (snd (request server None w)))%nat
  /\ (calls (snd (request server None w)) <= calls w + 4)%nat
  /\ fst (request server None w)
     = attempt (server (calls (snd (request server None w)) - 1)%nat)
  /\ (always_retryable server ->
      calls (snd (request server None w)) = (calls w + 4)%nat).
Proof.
  unfold request. simpl.
  destruct (withRetry_run (fun k => attempt (server k)) defaultRetries w)
    as (n & Hn & Hcalls & _ & Hfst & _ & Hlast).
  rewrite Hcalls, Hfst. change (0 `max` defaultRetries) with 3 in *.
  split; [lia|]. split; [lia|]. split.
  - f_equal. f_equal. lia.
  - intros Hall. destruct (Hall (calls w + n)%nat) as (e & He & Hs).
    specialize (Hlast e He Hs). lia.
Qed.

(** C6.  Under the default configuration the delays that a request arms,
    in order, are such that the one before the n-th retry is the base delay
    times n, none exceeds the ceiling RETRY_DELAY * RETRY_ATTEMPTS, and each
    is strictly larger than the one before it; when every attempt fails
    with a retryable error they are 1000, 2000 and 3000. *)
Theorem C6_default_backoff_linear_capped_increasing
    {T} (server : nat -> FetchResult T) (w : World) :
  exists delays : list Z,
    timers (snd (request server None w)) = timers w ++ delays
    /\ (forall n d, delays !! n = Some d ->
          d = REQUEST_CONFIG.RETRY_DELAY * Z.of_nat (S n)
          /\ d <= REQUEST_CONFIG.RETRY_DELAY * REQUEST_CONFIG.RETRY_ATTEMPTS)
    /\ (forall n d d', delays !! n = Some d -> delays !! S n = Some d' -> d < d')
    /\ (always_retryable server -> delays = [1000; 2000; 3000]).
Proof.
  unfold request. simpl.
  destruct (withRetry_run (fun k => attempt (server k)) defaultRetries w)
    as (n & Hn & _ & Htimers & _ & _ & Hlast).
  exists (backoffs defaultRetries n). change (0 `max` defaultRetries) with 3 in *.
  split; [assumption|]. split; [|split].
  - intros k d Hk. apply lookup_backoffs in Hk as [Hlt ->].
    unfold backoff, defaultRetries, REQUEST_CONFIG.RETRY_DELAY,
      REQUEST_CONFIG.RETRY_ATTEMPTS. lia.
  - intros k d d' Hk Hk'.
    apply lookup_backoffs in Hk as [_ ->]. apply lookup_backoffs in Hk' as [_ ->].
    unfold backoff, REQUEST_CONFIG.RETRY_DELAY. lia.
  - intros Hall. destruct (Hall (calls w + n)%nat) as (e & He & Hs).
    specialize (Hlast e He Hs). assert (n = 3%nat) as -> by lia. reflexivity.
Qed.

(** C9.  The delay is computed from [defaultRetries], not from the
    caller's [retries]: a request issued with [retries: n], n above the
    default 3, arms before its k-th retry (counting from 0) the delay
    RETRY_DELAY * (3 - n + 1 + k), which is zero or negative for each of the
    first n - 3 retries; when every attempt fails with a retryable error all
    n retries are made; and with the default configuration the delays of
    such a run are 1, 2 and 3 times the base delay. *)
Theorem C9_backoff_uses_default_retries
    {T} (server : nat -> FetchResult T) (n : Z) (w : World) :
  defaultRetries < n ->
  (exists delays : list Z,
     timers (snd (request server (Some n) w)) = timers w ++ delays
     /\ (forall k d, delays !! k = Some d ->
           d = REQUEST_CONFIG.RETRY_DELAY * (defaultRetries - n + 1 + Z.of_nat k)
           /\ (Z.of_nat k < n - defaultRetries -> d <= 0))
     /\ (always_retryable server -> Z.of_nat (length delays) = n))
  /\ (always_retryable server ->
      timers (snd (request server None w))
      = timers w ++ [1 * REQUEST_CONFIG.RETRY_DELAY;
                     2 * REQUEST_CONFIG.RETRY_DELAY;
                     3 * REQUEST_CONFIG.RETRY_DELAY]).
Proof.
  intros Hn. split.
  - unfold request. simpl.
    destruct (withRetry_run (fun k => attempt (server k)) n w)
      as (m & Hm & _ & Htimers & _ & _ & Hlast).
    exists (backoffs n m). split; [assumption|]. split.
    + intros k d Hk. apply lookup_backoffs in Hk as [Hlt ->].
      unfold backoff, defaultRetries, REQUEST_CONFIG.RETRY_DELAY,
        REQUEST_CONFIG.RETRY_ATTEMPTS in *. lia.
    + intros Hall. destruct (Hall (calls w + m)%nat) as (e & He & Hs).
      specialize (Hlast e He Hs). rewrite length_backoffs.
      unfold defaultRetries, REQUEST_CONFIG.RETRY_ATTEMPTS in *. lia.
  - intros Hall.
    destruct (request_spends_budget server None w Hall) as [_ ->]. reflexivity.
Qed.

Lemma C9_backoff_uses_default_retries_witness :
  defaultRetries < 5
  /\ exists delays : list Z,
       timers (snd (@request unit (fun _ => FetchAbortError) (Some 5) idle)) = delays
       /\ forall k d, delays !! k = Some d -> Z.of_nat k < 2 -> d <= 0.
Proof.
  split; [reflexivity|].
  destruct (C9_backoff_uses_default_retries
              (fun _ => @FetchAbortError unit) 5 idle eq_refl)
    as [(delays & Htimers & Hdelays & _) _].
  exists delays. split; [exact Htimers|].
  intros k d Hk Hlt. apply (Hdelays k d Hk). exact Hlt.
Defined.
End ClientClaims.

(** ** Metric status and trend *)

Section MetricClaims.
Import Types.

Lemma gt_true a b : gt a b = true <-> (b < a)%Q.
Proof.
  unfold gt. rewrite negb_true_iff, <- not_true_iff_false, Qle_bool_iff.
  split; [apply Qnot_le_lt | apply Qlt_not_le].
Qed.

Lemma gt_false a b : gt a b = false <-> (a <= b)%Q.
Proof. unfold gt. rewrite negb_false_iff. apply Qle_bool_iff. Qed.

#[local] Instance gt_proper : Proper (Qeq ==> Qeq ==> eq) gt.
Proof. intros a a' Ha b b' Hb. unfold gt. rewrite Ha, Hb. reflexivity. Qed.

#[local] Instance getMetricStatus_proper :
  Proper (Qeq ==> Qeq ==> Qeq ==> eq) getMetricStatus.
Proof.
  intros v v' Hv c c' Hc w w' Hw. unfold getMetricStatus.
  rewrite (gt_proper _ _ Hv _ _ Hc), (gt_proper _ _ Hv _ _ Hw). reflexivity.
Qed.

(** Raising the value never lowers the rank that [getMetricStatus] gives. *)
Lemma getMetricStatus_monotone v1 v2 criticalThreshold warningThreshold :
  (v1 <= v2)%Q ->
  (severity (getMetricStatus v1 criticalThreshold warningThreshold)
   <= severity (getMetricStatus v2 criticalThreshold warningThreshold))%nat.
Proof.
  intros Hle. unfold getMetricStatus.
  destruct (gt v1 criticalThreshold) eqn:H1c.
  - apply gt_true in H1c.
    assert (gt v2 criticalThreshold = true) as ->
      by (apply gt_true; eapply Qlt_le_trans; eauto).
    reflexivity.
  - destruct (gt v1 warningThreshold) eqn:H1w; [|simpl; lia].
    apply gt_true in H1w.
    destruct (gt v2 criticalThreshold); [simpl; lia|].
    assert (gt v2 warningThreshold = true) as ->
      by (apply gt_true; eapply Qlt_le_trans; eauto).
    reflexivity.
Qed.

(** Raising the value never raises the rank that [getHealthStatus] gives. *)
Lemma getHealthStatus_antitone v1 v2 :
  (v1 <= v2)%Q ->
  (severity (getHealthStatus v2) <= severity (getHealthStatus v1))%nat.
Proof.
  intros Hle. unfold getHealthStatus.
  destruct (gt v1 90) eqn:H1.
  - apply gt_true in H1.
    assert (gt v2 90 = true) as -> by (apply gt_true; eapply Qlt_le_trans; eauto).
    reflexivity.
  - destruct (gt v1 70) eqn:H2.
    + apply gt_true in H2.
      destruct (gt v2 90); [simpl; lia|].
      assert (gt v2 70 = true) as -> by (apply gt_true; eapply Qlt_le_trans; eauto).
      reflexivity.
    + destruct (gt v2 90); [simpl; lia|]. destruct (gt v2 70); simpl; lia.
Qed.

(** Against C3 as stated.  Between two consecutive responses the CPU value
    goes from 10 to 50, an increase beyond a tolerance of 1, which the
    comparison the specification describes reports as 'up'; every metric of
    the second response is reported 'stable', and no response at all yields
    a metric reported 'up'. *)
Lemma C3_increase_reported_stable :
  cpu_usage (mkMetricsApiResponse 10 40 300 12 95 "2024-01-01T00:00:00Z") = 10%Q
  /\ cpu_usage (mkMetricsApiResponse 50 40 300 12 95 "2024-01-01T00:00:05Z") = 50%Q
  /\ trend_by_comparison 1 10 50 = up
  /\ List.map trend
       (transformMetricsResponse
          (mkMetricsApiResponse 50 40 300 12 95 "2024-01-01T00:00:05Z"))
     = [stable; stable; stable; stable; stable]
  /\ ~ (exists apiResponse m,
         m ∈ transformMetricsResponse apiResponse /\ trend m = up).
Proof.
  repeat split. intros (apiResponse & m & Hin & Hup).
  unfold transformMetricsResponse in Hin.
  repeat (apply elem_of_cons in Hin as [-> | Hin]); try discriminate Hup.
  inversion Hin.
Qed.

(** C3, amended.  Every metric that the transformation produces from a
    metrics response has trend 'stable', whatever its value and whatever
    any earlier response held: the transformation compares with no
    previous value. *)
Theorem C3_trend_always_stable (apiResponse : MetricsApiResponse) :
  Forall (fun m => trend m = stable) (transformMetricsResponse apiResponse).
Proof. unfold transformMetricsResponse. repeat constructor. Qed.

(** Against C4 as stated.  Overall Health at 50 is critical and at 95 is
    healthy: the value was raised and the status improved. *)
Lemma C4_overall_health_improves_when_raised :
  exists m1 m2,
    m1 ∈ transformMetricsResponse (mkMetricsApiResponse 50 40 300 12 50 "t1")
    /\ m2 ∈ transformMetricsResponse (mkMetricsApiResponse 50 40 300 12 95 "t2")
    /\ name m1 = name m2
    /\ (value m1 <= value m2)%Q
    /\ status m1 = critical /\ status m2 = healthy
    /\ (severity (status m2) < severity (status m1))%nat.
Proof.
  eexists _, _. split; [|split].
  - do 4 apply list_elem_of_further. apply list_elem_of_here.
  - do 4 apply list_elem_of_further. apply list_elem_of_here.
  - simpl. repeat split; try lia. discriminate.
Qed.

(** C4, amended.  The status of a metric is a function of its value that
    is monotone in a direction fixed per metric: for the same metric in
    two responses with values v1 <= v2, the status at v2 is never strictly
    better than at v1 for CPU Usage, Memory Usage, Network Traffic and
    Container Count, and never strictly worse than at v1 for Overall
    Health, under critical > warning > healthy. *)
Theorem C4_status_monotone_per_metric
    (r1 r2 : MetricsApiResponse) (m1 m2 : Metric) :
  (m1, m2) ∈ zip (transformMetricsResponse r1) (transformMetricsResponse r2) ->
  (value m1 <= value m2)%Q ->
  name m1 = name m2
  /\ (name m1 <> "Overall Health" ->
      (severity (status m1) <= severity (status m2))%nat)
  /\ (name m1 = "Overall Health" ->
      (severity (status m2) <= severity (status m1))%nat).
Proof.
  intros Hin Hle. unfold transformMetricsResponse in Hin. simpl in Hin.
  repeat (apply elem_of_cons in Hin as [Hin | Hin];
          [injection Hin as -> -> |]); [ | | | | | inversion Hin ];
    simpl in *; (split; [reflexivity|]); split; intros Hname;
    try discriminate; try congruence.
  - apply getMetricStatus_monotone, Hle.
  - apply getMetricStatus_monotone, Hle.
  - destruct (gt (network_traffic r1) 1000) eqn:H1; [|simpl; lia].
    apply gt_true in H1.
    assert (gt (network_traffic r2) 1000 = true) as ->
      by (apply gt_true; eapply Qlt_le_trans; eauto).
    reflexivity.
  - lia.
  - apply getHealthStatus_antitone, Hle.
Qed.

Lemma C4_status_monotone_per_metric_witness :
  (severity (getMetricStatus 59 80 60) <= severity (getMetricStatus 61 80 60))%nat.
Proof.
  refine (proj1 (proj2
    (C4_status_monotone_per_metric
       (mkMetricsApiResponse 59 40 300 12 50 "t1")
       (mkMetricsApiResponse 61 40 300 12 95 "t2")
       (mkMetric "CPU Usage" 59 "%" (getMetricStatus 59 80 60) stable (Some "t1"))
       (mkMetric "CPU Usage" 61 "%" (getMetricStatus 61 80 60) stable (Some "t2"))
       _ _)) _).
  - apply list_elem_of_here.
  - unfold Qle. simpl. lia.
  - discriminate.
Defined.

(** C5.  Every metrics response yields exactly one CPU Usage metric, the
    first of the list; its value is the [cpu_usage] of the response and its
    status is a function of that value alone, with warning threshold 60 and
    critical threshold 80: critical exactly when the value is above 80,
    warning exactly when it is above 60 and not above 80, healthy otherwise,
    so that two responses with the same CPU value give the same status, and
    value 59 gives 'healthy', 61 gives 'warning' and 81 gives 'critical'. *)
Theorem C5_cpu_status_by_thresholds (apiResponse : MetricsApiResponse) :
  exists (cpu : Metric) (others : list Metric),
    transformMetricsResponse apiResponse = cpu :: others
    /\ name cpu = "CPU Usage"
    /\ Forall (fun m => name m <> "CPU Usage") others
    /\ value cpu = cpu_usage apiResponse
    /\ status cpu = getMetricStatus (cpu_usage apiResponse) 80 60
    /\ (status cpu = critical <-> (80 < cpu_usage apiResponse)%Q)
    /\ (status cpu = warning
        <-> (60 < cpu_usage apiResponse)%Q /\ (cpu_usage apiResponse <= 80)%Q)
    /\ (status cpu = healthy <-> (cpu_usage apiResponse <= 60)%Q)
    /\ (forall (other : MetricsApiResponse) cpu' others',
          transformMetricsResponse other = cpu' :: others' ->
          (cpu_usage other == cpu_usage apiResponse)%Q ->
          status cpu' = status cpu)
    /\ ((cpu_usage apiResponse == 59)%Q -> status cpu = healthy)
    /\ ((cpu_usage apiResponse == 61)%Q -> status cpu = warning)
    /\ ((cpu_usage apiResponse == 81)%Q -> status cpu = critical).
Proof.
  unfold transformMetricsResponse. do 2 eexists. split; [reflexivity|].
  set (v := cpu_usage apiResponse). cbn [name value status].
  split; [reflexivity|].
  split; [repeat constructor; discriminate|].
  split; [reflexivity|]. split; [reflexivity|].
  assert ((getMetricStatus v 80 60 = critical <-> (80 < v)%Q)
          /\ (getMetricStatus v 80 60 = warning <-> (60 < v)%Q /\ (v <= 80)%Q)
          /\ (getMetricStatus v 80 60 = healthy <-> (v <= 60)%Q)) as Hregions.
  { unfold getMetricStatus.
    destruct (gt v 80) eqn:Hc; [apply gt_true in Hc | apply gt_false in Hc];
      (destruct (gt v 60) eqn:Hw; [apply gt_true in Hw | apply gt_false in Hw]).
    all: repeat split; intros; try discriminate; try assumption;
      repeat match goal with H : _ /\ _ |- _ => destruct H end;
      try match goal with
          | H1 : (?a < ?b)%Q, H2 : (?b <= ?a)%Q |- _ =>
              destruct (Qlt_not_le _ _ H1 H2)
          end;
      try reflexivity.
    exfalso. apply (Qlt_not_le _ _ Hc). eapply Qle_trans; [exact Hw|].
    unfold Qle. simpl. lia. }
  destruct Hregions as (Hcritical & Hwarning & Hhealthy).
  split; [exact Hcritical|]. split; [exact Hwarning|]. split; [exact Hhealthy|].
  split.
  { intros other cpu' others' [= <- _] Heq. cbn [status].
    apply getMetricStatus_proper; [exact Heq | reflexivity | reflexivity]. }
  repeat split; intros ->; reflexivity.
Qed.
End MetricClaims.

(** ** The query hooks *)

Section HookClaims.
Import Constants Hooks.

(** C8.  With the options the hooks set themselves, the refresh intervals
    are 5000 for metrics, 10000 for services, 15000 for logs and 30000 for
    status: the metrics interval is strictly below each of the others and
    the status interval strictly above each of the others. *)
Theorem C8_refresh_intervals_ordered (params : option LogsParams) :
  exists metrics services logs status : Z,
    refetchInterval (options (useMetrics None)) = Some metrics
    /\ refetchInterval (options (useServices None)) = Some services
    /\ refetchInterval (options (useLogs params None)) = Some logs
    /\ refetchInterval (options (useSystemStatus None)) = Some status
    /\ metrics < services /\ metrics < logs /\ metrics < status
    /\ services < status /\ logs < status.
Proof.
  exists 5000, 10000, 15000, 30000. simpl. repeat split; lia.
Qed.

Lemma truthy_number_spec (n : option Js.Number) (value : string) :
  truthy_number n = true /\ value = toString (default Js.NaN n) <->
  exists k, n = Some k /\ Js.number_truthy k = true /\ value = toString k.
Proof.
  destruct n as [k|]; simpl.
  - split.
    + intros [Hk ->]. eauto.
    + intros (k' & [= <-] & Hk & ->). auto.
  - split; [intros [[=] _] | intros (k & [=] & _)].
Qed.

Lemma truthy_string_spec (s : option string) (value : string) :
  truthy_string s = true /\ value = default "" s <->
  exists t, s = Some t /\ t <> "" /\ value = t.
Proof.
  destruct s as [t|]; simpl.
  - rewrite negb_true_iff, String.eqb_neq. split.
    + intros [Ht ->]. eauto.
    + intros (t' & [= <-] & Ht & ->). auto.
  - split; [intros [[=] _] | intros (t & [=] & _)].
Qed.

Lemma elem_of_append_if (b : bool) (name value : string)
    (queryParams : URLSearchParams) (entry : string * string) :
  entry ∈ (if b then append name value queryParams else queryParams) <->
  entry ∈ queryParams \/ (b = true /\ entry = (name, value)).
Proof.
  destruct b; unfold append.
  - rewrite elem_of_app, list_elem_of_singleton. intuition.
  - intuition discriminate.
Qed.

Lemma serialize_cons_nonempty entry (queryParams : URLSearchParams) :
  serialize (entry :: queryParams) <> "".
Proof.
  assert (forall s t : string, s +:+ "=" +:+ t <> "") as Hne
    by (intros [|c s] t; discriminate).
  destruct entry as [name value]. destruct queryParams; simpl; apply Hne.
Qed.

Lemma received_append_other (key name value : string)
    (queryParams : URLSearchParams) :
  name <> key ->
  Server.received key (append name value queryParams) = Server.received key queryParams.
Proof.
  intros Hne. unfold append.
  induction queryParams as [|[n v] rest IH]; simpl.
  - apply String.eqb_neq in Hne. rewrite Hne. reflexivity.
  - rewrite IH. reflexivity.
Qed.

Lemma received_append_if_other (b : bool) (key name value : string)
    (queryParams : URLSearchParams) :
  name <> key ->
  Server.received key (if b then append name value queryParams else queryParams)
  = Server.received key queryParams.
Proof. intros Hne. destruct b; [apply received_append_other, Hne | reflexivity]. Qed.

(** Against C10 as stated.  A negative limit and a negative offset are
    truthy: both are sent in the request URL although neither is strictly
    positive. *)
Lemma C10_negative_limit_is_sent :
  logsQueryParams
    (mkLogsParams (Some (Js.Integer (-5) eq_refl)) None None
                  (Some (Js.Integer (-1) eq_refl)))
    = [("limit", "-5"); ("offset", "-1")]
  /\ endpoint
       (useLogs (Some (mkLogsParams (Some (Js.Integer (-5) eq_refl)) None None
                                    (Some (Js.Integer (-1) eq_refl))))
                None)
    = "/logs/?limit=-5&offset=-1".
Proof. split; vm_compute; reflexivity. Qed.

(** C10, amended.  The entries of the query string that [useLogs] builds
    are exactly: [limit] when the caller's limit is a truthy number, [level]
    when the caller's level is a non-empty string, [service] when the
    caller's service is a non-empty string, and [offset] when the caller's
    offset is a truthy number, each with the caller's value as [toString]
    prints it; a number is truthy unless it is 0 or NaN, so a negative limit
    or offset is sent.  A parameter whose value is falsy (a limit or offset
    of 0 or NaN, an empty level or service) or that is not given is left
    out, the server receives no entry of that name, and the server's
    default takes effect in its place.  The request URL is the bare logs
    endpoint exactly when no entry is sent, and otherwise the endpoint
    followed by [?] and the serialized entries. *)
Theorem C10_only_truthy_params_are_sent
    (params : LogsParams) (opts : option QueryOptions) :
  (forall key value,
     (key, value) ∈ logsQueryParams params <->
     (key = "limit"
      /\ exists n, limit params = Some n /\ Js.number_truthy n = true
                   /\ value = toString n)
     \/ (key = "level" /\ exists s, level params = Some s /\ s <> "" /\ value = s)
     \/ (key = "service" /\ exists s, service params = Some s /\ s <> "" /\ value = s)
     \/ (key = "offset"
         /\ exists n, offset params = Some n /\ Js.number_truthy n = true
                      /\ value = toString n))
  /\ (forall n, Js.number_truthy n = false <->
                n = Js.NaN \/ exists below, n = Js.Integer 0 below)
  /\ (forall serverDefault,
        (truthy_number (limit params) = false ->
         Server.received "limit" (logsQueryParams params) = None
         /\ Server.effective serverDefault "limit" (logsQueryParams params)
            = serverDefault)
        /\ (truthy_string (level params) = false ->
            Server.received "level" (logsQueryParams params) = None
            /\ Server.effective serverDefault "level" (logsQueryParams params)
               = serverDefault)
        /\ (truthy_string (service params) = false ->
            Server.received "service" (logsQueryParams params) = None
            /\ Server.effective serverDefault "service" (logsQueryParams params)
               = serverDefault)
        /\ (truthy_number (offset params) = false ->
            Server.received "offset" (logsQueryParams params) = None
            /\ Server.effective serverDefault "offset" (logsQueryParams params)
               = serverDefault))
  /\ (endpoint (useLogs (Some params) opts) = API_ENDPOINTS.LOGS <->
      logsQueryParams params = [])
  /\ (logsQueryParams params <> [] ->
      endpoint (useLogs (Some params) opts)
      = API_ENDPOINTS.LOGS +:+ "?" +:+ serialize (logsQueryParams params)).
Proof.
  split; [|split; [|split; [|split]]].
  - intros key value. unfold logsQueryParams. cbv zeta.
    rewrite !elem_of_append_if, elem_of_nil.
    rewrite <- !truthy_number_spec, <- !truthy_string_spec.
    split.
    + intros [[[[[] | [H [= -> ->]]] | [H [= -> ->]]] | [H [= -> ->]]] | [H [= -> ->]]];
        auto 10.
    + intros [[-> [H ->]] | [[-> [H ->]] | [[-> [H ->]] | [-> [H ->]]]]]; auto 10.
  - intros [k below | | printed]; simpl.
    + rewrite negb_false_iff, Z.eqb_eq. split.
      * intros ->. right. exists below. reflexivity.
      * intros [[=] | (below' & [= ->])]. reflexivity.
    + split; [auto | reflexivity].
    + split; [discriminate | intros [[=] | (below & [=])]].
  - intros serverDefault. unfold Server.effective, logsQueryParams. cbv zeta.
    split; [|split; [|split]]; intros Hfalsy; rewrite Hfalsy;
      repeat first [ rewrite received_append_if_other by discriminate
                   | progress cbv beta iota ];
      split; reflexivity.
  - unfold useLogs. simpl.
    destruct (logsQueryParams params) as [|entry rest] eqn:Hq.
    + simpl. split; reflexivity.
    + destruct (String.eqb (serialize (entry :: rest)) "") eqn:He.
      * apply String.eqb_eq in He. destruct (serialize_cons_nonempty _ _ He).
      * cbn [negb]. split; discriminate.
  - intros Hne. unfold useLogs. simpl.
    destruct (logsQueryParams params) as [|entry rest] eqn:Hq; [congruence|].
    destruct (String.eqb (serialize (entry :: rest)) "") eqn:He.
    + apply String.eqb_eq in He. destruct (serialize_cons_nonempty _ _ He).
    + reflexivity.
Qed.

Lemma logs_query_number_examples :
  logsQueryParams (mkLogsParams (Some (Js.Integer 0 eq_refl)) (Some "") (Some "")
                                (Some Js.NaN)) = []
  /\ logsQueryParams (mkLogsParams (Some (Js.Other "1e+21")) None None
                                   (Some (Js.Other "0.5")))
     = [("limit", "1e+21"); ("offset", "0.5")]
  /\ endpoint (useLogs (Some (mkLogsParams (Some (Js.Other "1e+21")) None None None))
                       None)
     = "/logs/?limit=1e%2B21".
Proof. repeat split; vm_compute; reflexivity. Qed.
End HookClaims.

(** ** The services table *)

Section TableClaims.
Import Db.

Lemma consistent_created : consistent created.
Proof. intros id row H. unfold created in H. rewrite lookup_empty in H. discriminate. Qed.

Lemma store_consistent id row table table' :
  consistent table -> store id row table = Some table' -> consistent table'.
Proof.
  unfold store. intros Hok Hstore.
  destruct (constraints id row) eqn:Hc; [|discriminate].
  injection Hstore as <-. intros id' row' Hlookup.
  destruct (decide (id = id')) as [<- | Hne].
  - rewrite lookup_insert_eq in Hlookup. injection Hlookup as <-. exact Hc.
  - rewrite lookup_insert_ne in Hlookup by assumption. eauto.
Qed.

Lemma exec_consistent now statement table table' :
  consistent table -> exec now statement table = Some table' -> consistent table'.
Proof.
  intros Hok Hexec.
  destruct statement as [id n s u l | id n s u l | id s u l | id]; simpl in Hexec.
  - destruct (table !! id); [discriminate|].
    destruct (coerce_uptime u); [|discriminate]. eauto using store_consistent.
  - destruct (coerce_uptime u); [|discriminate]. simpl in Hexec.
    destruct (table !! id); eauto using store_consistent.
  - destruct (table !! id) as [old|]; [|injection Hexec as <-; exact Hok].
    destruct (match u with Some new => coerce_uptime new | None => Some (uptime old) end);
      [|discriminate].
    eauto using store_consistent.
  - injection Hexec as <-. intros id' row' Hlookup.
    apply lookup_delete_Some in Hlookup as [_ Hlookup]. eauto.
Qed.

Lemma run_consistent session table :
  consistent table -> consistent (run session table).
Proof.
  revert table. induction session as [|[now statement] rest IH]; intros table Hok.
  - exact Hok.
  - simpl. apply IH.
    destruct (exec now statement table) as [table'|] eqn:Hexec; simpl.
    + eauto using exec_consistent.
    + exact Hok.
Qed.

Lemma constraints_uptime id row percent :
  constraints id row = true -> uptime_percent row = Some percent ->
  (0 <= percent <= 100)%Q.
Proof.
  unfold constraints, uptime_percent. intros Hc Hp.
  apply andb_true_iff in Hc as [_ Hc].
  destruct (uptime row) as [hundredths|]; [|discriminate].
  injection Hp as <-. simpl in Hc.
  apply andb_true_iff in Hc as [Hlo Hhi].
  apply Z.leb_le in Hlo, Hhi. unfold Qle. simpl. lia.
Qed.

(** C7.  After any session of statements on the services table (rows
    inserted, statuses changed, uptimes adjusted, rows deleted, in any
    order and with any values, failed statements included), every uptime
    percentage stored in the table lies in the closed interval [0, 100]. *)
Theorem C7_stored_uptime_within_0_100
    (session : list (Z * Statement)) (id : string) (row : Service) (percent : Q) :
  run session created !! id = Some row ->
  uptime_percent row = Some percent ->
  (0 <= percent <= 100)%Q.
Proof.
  intros Hrow Hp.
  eapply constraints_uptime; [|exact Hp].
  exact (run_consistent session created consistent_created id row Hrow).
Qed.

Lemma C7_stored_uptime_within_0_100_witness :
  (0 <= 9724 # 100 <= 100)%Q.
Proof.
  refine (C7_stored_uptime_within_0_100
    (seed 0 ++ [ (5, Update "file-storage" (Some "degraded") (Some (Some 97.24%Q)) (Some 5));
                 (10, Update "file-storage" None (Some (Some 120%Q)) (Some 10)) ])
    "file-storage"
    (mkService "File Storage" "degraded" (Some 9724) 5 0 5)
    (9724 # 100) _ _).
  - vm_compute. reflexivity.
  - reflexivity.
Defined.
End TableClaims.

(* ===================================================================== *)
(** * Further properties of the modelled code *)
(* ===================================================================== *)

(** ** The API client *)

Section ClientProperties.
Import Constants Api.

Lemma parseErrorResponse_returns {T} (response : Response T) (error : ClientError) :
  parseErrorResponse response = Return error ->
  exists message code details,
    error = ApiError message (status response) code details.
Proof.
  unfold parseErrorResponse.
  destruct (errorData response); try discriminate;
    (match goal with
     | |- context [match ?m with Some _ => _ | None => _ end] =>
         destruct m as [chosen|]; [destruct (Js.toString chosen); [|discriminate]|]
     end; intros [= <-]; eauto).
Qed.

Lemma parseErrorResponse_throws {T} (response : Response T) (thrown : ClientError) :
  parseErrorResponse response = Throw thrown -> thrown = TypeError.
Proof.
  unfold parseErrorResponse.
  destruct (errorData response);
    try (intros [= <-]; reflexivity);
    (match goal with
     | |- context [match ?m with Some _ => _ | None => _ end] =>
         destruct m as [chosen|]; [destruct (Js.toString chosen)|]
     end; try discriminate; intros [= <-]; reflexivity).
Qed.

Lemma attempt_rejected {T} (r : FetchResult T) (error : ClientError) :
  attempt r = Rejected error ->
  (exists message, error = NetworkError message
                   /\ forall response, r <> FetchResponse response)
  \/ (exists response message code details,
        r = FetchResponse response
        /\ error = ApiError message (status response) code details)
  \/ (exists response,
        r = FetchResponse response /\ ok response = false
        /\ parseErrorResponse response = Throw TypeError /\ error = TypeError).
Proof.
  destruct r as [response | | message |]; unfold attempt; simpl.
  - intros H. right. destruct (ok response) eqn:Hok; simpl in H.
    + destruct (data response); [discriminate|]. injection H as <-.
      left. exists response. eauto.
    + destruct (parseErrorResponse response) as [e | e] eqn:Hparse;
        injection H as <-.
      * left. exists response.
        destruct (parseErrorResponse_returns _ _ Hparse) as (m & c & d & ->). eauto.
      * right. exists response.
        pose proof (parseErrorResponse_throws _ _ Hparse) as ->. auto.
  - intros [= <-]. left. eexists. split; [reflexivity | discriminate].
  - intros [= <-]. left. eexists. split; [reflexivity | discriminate].
  - intros [= <-]. left. eexists. split; [reflexivity | discriminate].
Qed.

(** X1.  Whatever [request] throws is the failure of the last attempt it
    made, and it is one of three things: a NetworkError, when the fetch of
    that attempt threw instead of answering; an ApiError that carries the
    HTTP status of the response of that attempt; or the TypeError raised
    while the error body of a non-2xx response of that attempt was read (a
    JSON [null] body, or a message that cannot be converted to a string),
    which is not classified and not retryable. *)
Theorem X1_request_rejections_classified
    {T} (server : nat -> FetchResult T) (retries : option Z) (w : World)
    (error : ClientError) :
  fst (request server retries w) = Rejected error ->
  exists k : nat,
    calls (snd (request server retries w)) = (calls w + k + 1)%nat
    /\ ((exists message,
           error = NetworkError message
           /\ forall response, server (calls w + k)%nat <> FetchResponse response)
        \/ (exists response message code details,
              server (calls w + k)%nat = FetchResponse response
              /\ error = ApiError message (status response) code details)
        \/ (exists response,
              server (calls w + k)%nat = FetchResponse response
              /\ ok response = false
              /\ parseErrorResponse response = Throw TypeError
              /\ error = TypeError /\ shouldRetry error = false)).
Proof.
  unfold request.
  destruct (withRetry_run (fun k => attempt (server k))
              (default defaultRetries retries) w)
    as (n & _ & Hcalls & _ & Hfst & _).
  rewrite Hfst. intros Hrej. exists n. split; [exact Hcalls|].
  apply attempt_rejected in Hrej
    as [H | [H | (response & Hserver & Hok & Hparse & ->)]]; auto.
  right. right. exists response. auto 6.
Qed.

Lemma X1_request_rejections_classified_witness :
  exists k : nat,
    calls (snd (@request unit
                  (fun _ => FetchResponse (mkResponse 502 "Bad Gateway" (JsonBody Js.JNull) None))
                  None idle)) = (calls idle + k + 1)%nat.
Proof.
  destruct (X1_request_rejections_classified
              (fun _ => FetchResponse
                          (@mkResponse unit 502 "Bad Gateway" (JsonBody Js.JNull) None))
              None idle TypeError eq_refl)
    as (k & Hcalls & _).
  exists k. exact Hcalls.
Defined.

Lemma js_or_left a b : Js.truthy a = true -> Js.js_or a b = a.
Proof. unfold Js.js_or. intros ->. reflexivity. Qed.

Lemma js_or_right a b : Js.truthy a = false -> Js.js_or a b = b.
Proof. unfold Js.js_or. intros ->. reflexivity. Qed.

Lemma truthy_string (s : string) : s <> "" -> Js.truthy (Some (Js.JString s)) = true.
Proof. intros Hs. simpl. apply negb_true_iff, String.eqb_neq, Hs. Qed.

Lemma fallback_chosen {T} (response : Response T) :
  Js.js_or (Some (Js.JString (statusText response))) (Some (Js.JString "Unknown error"))
  = Some (Js.JString (fallbackMessage response)).
Proof.
  unfold Js.js_or, fallbackMessage. simpl.
  destruct (String.eqb (statusText response) ""); reflexivity.
Qed.

Lemma parseErrorResponse_text {T} (response : Response T) (text : string) :
  errorBody response = TextBody text ->
  parseErrorResponse response
  = Return (ApiError (if String.eqb text "" then fallbackMessage response else text)
                     (status response) None None).
Proof.
  intros Hbody. unfold parseErrorResponse, errorData. rewrite Hbody.
  cbn [Js.get Js.member Js.get_optional String.eqb Ascii.eqb Bool.eqb].
  destruct (String.eqb text "") eqn:Et.
  - rewrite (js_or_right None) by reflexivity.
    rewrite (js_or_right (Some (Js.JString text))) by (simpl; rewrite Et; reflexivity).
    rewrite fallback_chosen. reflexivity.
  - rewrite (js_or_right None) by reflexivity.
    rewrite !(js_or_left (Some (Js.JString text))) by (simpl; rewrite Et; reflexivity).
    reflexivity.
Qed.

(** X2.  [parseErrorResponse] either returns an ApiError that carries the
    status of the response, or throws a TypeError, which it does only on a
    JSON body and always on the JSON [null].  On a JSON object the message
    is the body's [error.message] when that is a non-empty string, else the
    body's [message] when that is a non-empty string and [error.message] is
    falsy, else, both being falsy, the status text, or 'Unknown error' when
    the status text is empty.  A text body counts as its [message]; a body
    that cannot be read gives 'Failed to parse error response'.  A truthy
    message that is not a string is converted to one, so the message can be
    empty: the body [{"message": []}] gives the empty message. *)
Theorem X2_parseErrorResponse_message {T} (response : Response T) :
  (forall error, parseErrorResponse response = Return error ->
     exists message code details,
       error = ApiError message (status response) code details)
  /\ (forall thrown, parseErrorResponse response = Throw thrown ->
        thrown = TypeError /\ exists body, errorBody response = JsonBody body)
  /\ (errorBody response = JsonBody Js.JNull ->
      parseErrorResponse response = Throw TypeError)
  /\ (forall members s,
        errorBody response = JsonBody (Js.JObject members) ->
        Js.get_optional (Js.member "error" members) "message" = Some (Js.JString s) ->
        s <> "" ->
        exists code details,
          parseErrorResponse response = Return (ApiError s (status response) code details))
  /\ (forall members s,
        errorBody response = JsonBody (Js.JObject members) ->
        Js.truthy (Js.get_optional (Js.member "error" members) "message") = false ->
        Js.member "message" members = Some (Js.JString s) ->
        s <> "" ->
        exists code details,
          parseErrorResponse response = Return (ApiError s (status response) code details))
  /\ (forall members,
        errorBody response = JsonBody (Js.JObject members) ->
        Js.truthy (Js.get_optional (Js.member "error" members) "message") = false ->
        Js.truthy (Js.member "message" members) = false ->
        exists code details,
          parseErrorResponse response
          = Return (ApiError (fallbackMessage response) (status response) code details))
  /\ (forall text,
        errorBody response = TextBody text ->
        parseErrorResponse response
        = Return (ApiError (if String.eqb text "" then fallbackMessage response else text)
                           (status response) None None))
  /\ (errorBody response = BrokenBody ->
      parseErrorResponse response
      = Return (ApiError "Failed to parse error response" (status response) None None))
  /\ (errorBody response = JsonBody (Js.JObject [("message", Js.JArray [])]) ->
      parseErrorResponse response = Return (ApiError "" (status response) None None)).
Proof.
  split; [apply parseErrorResponse_returns|].
  split.
  { intros thrown Hthrow. split; [eapply parseErrorResponse_throws; eauto|].
    destruct (errorBody response) as [body | text |] eqn:Hbody.
    - exists body. reflexivity.
    - rewrite (parseErrorResponse_text response text Hbody) in Hthrow.
      discriminate Hthrow.
    - unfold parseErrorResponse, errorData in Hthrow. rewrite Hbody in Hthrow.
      discriminate Hthrow. }
  split.
  { intros Hbody. unfold parseErrorResponse, errorData. rewrite Hbody. reflexivity. }
  split.
  { intros members s Hbody Hmsg Hs. unfold parseErrorResponse, errorData.
    rewrite Hbody. cbn [Js.get]. rewrite Hmsg.
    rewrite !(js_or_left _ _ (truthy_string s Hs)). simpl. eauto. }
  split.
  { intros members s Hbody Hfalsy Hmsg Hs. unfold parseErrorResponse, errorData.
    rewrite Hbody. cbn [Js.get].
    rewrite (js_or_right _ _ Hfalsy), Hmsg.
    rewrite !(js_or_left _ _ (truthy_string s Hs)). simpl. eauto. }
  split.
  { intros members Hbody Hfalsy Hfalsy'. unfold parseErrorResponse, errorData.
    rewrite Hbody. cbn [Js.get].
    rewrite (js_or_right _ _ Hfalsy), (js_or_right _ _ Hfalsy'), fallback_chosen.
    simpl. eauto. }
  split; [apply parseErrorResponse_text|].
  split; intros Hbody; unfold parseErrorResponse, errorData; rewrite Hbody;
    reflexivity.
Qed.
End ClientProperties.

Section RetryProperties.
Import Constants Api.

(** X3.  A response with a 2xx status whose payload cannot be parsed is
    thrown as an ApiError 'Failed to parse response' carrying that 2xx
    status; it is not retryable, so whatever the retry budget the request
    ends after this one attempt with no timer armed. *)
Theorem X3_unparsable_success_not_retried
    {T} (server : nat -> FetchResult T) (retries : option Z) (w : World)
    (response : Response T) :
  server (calls w) = FetchResponse response ->
  ok response = true ->
  data response = None ->
  request server retries w
  = (Rejected (ApiError "Failed to parse response" (status response) None None),
     invoke w).
Proof.
  intros Hserver Hok Hdata. unfold request.
  apply withRetry_stop.
  - unfold attempt. rewrite Hserver. simpl. rewrite Hok, Hdata. reflexivity.
  - simpl. unfold ok in Hok. apply andb_true_iff in Hok as [_ Hhi].
    apply Z.leb_le in Hhi.
    replace (500 <=? status response) with false by lia. apply andb_false_r.
Qed.

Lemma X3_unparsable_success_not_retried_witness :
  @request unit (fun _ => FetchResponse (mkResponse 200 "OK" BrokenBody None))
           (Some 10) idle
  = (Rejected (ApiError "Failed to parse response" 200 None None), invoke idle).
Proof.
  apply (X3_unparsable_success_not_retried
           (fun _ => FetchResponse (@mkResponse unit 200 "OK" BrokenBody None))
           (Some 10) idle (mkResponse 200 "OK" BrokenBody None));
    reflexivity.
Defined.


Lemma withRetry_after_failures {T} (operation : Operation T) (k : nat) :
  forall (retries : Z) (w : World),
    Z.of_nat k <= Z.max 0 retries ->
    (forall j, (j < k)%nat ->
       exists error, operation (calls w + j)%nat = Rejected error
                     /\ shouldRetry error = true) ->
    withRetry operation retries w
    = withRetry operation (retries - Z.of_nat k)
        (mkWorld (calls w + k) (timers w ++ backoffs retries k)).
Proof.
  induction k as [|k IH]; intros retries w Hk Hfail.
  - unfold backoffs. simpl. rewrite Z.sub_0_r, Nat.add_0_r, app_nil_r.
    destruct w; reflexivity.
  - destruct (Hfail 0%nat ltac:(lia)) as (error & Hop & Hre).
    rewrite Nat.add_0_r in Hop.
    rewrite (withRetry_retry operation retries w error Hop)
      by (rewrite Hre, andb_true_r; apply Z.ltb_lt; lia).
    rewrite IH.
    + cbn [calls timers setTimeout invoke]. f_equal; [lia|].
      f_equal; [lia|].
      rewrite <- app_assoc. f_equal. unfold backoffs. simpl. f_equal.
      * unfold backoff. f_equal. lia.
      * rewrite <- fmap_S_seq, <- list_fmap_compose. apply list_fmap_ext.
        intros _ j _. simpl. f_equal. lia.
    + lia.
    + intros j Hj. cbn [calls setTimeout invoke].
      replace (S (calls w) + j)%nat with (calls w + S j)%nat by lia.
      apply Hfail. lia.
Qed.

(** X5.  If the first k attempts fail with retryable errors, k being within
    the retry budget, and the next attempt succeeds, the loop hands back that
    success after exactly k + 1 attempts, having armed the k delays
    [backoff retries], [backoff (retries - 1)], ... in that order. *)
Theorem X5_success_after_retryable_failures
    {T} (operation : Operation T) (retries : Z) (w : World) (k : nat) (value : T) :
  Z.of_nat k <= Z.max 0 retries ->
  (forall j, (j < k)%nat ->
     exists error, operation (calls w + j)%nat = Rejected error
                   /\ shouldRetry error = true) ->
  operation (calls w + k)%nat = Resolved value ->
  withRetry operation retries w
  = (Resolved value, mkWorld (calls w + k + 1) (timers w ++ backoffs retries k)).
Proof.
  intros Hk Hfail Hok.
  rewrite (withRetry_after_failures operation k retries w Hk Hfail).
  rewrite (withRetry_resolved operation _ _ value) by exact Hok.
  unfold invoke. simpl. f_equal. f_equal. lia.
Qed.

Lemma X5_success_after_retryable_failures_witness :
  withRetry
    (fun k => if (k <? 2)%nat
              then Rejected (ApiError "Service Unavailable" 503 None None)
              else Resolved "ok")
    defaultRetries idle
  = (Resolved "ok", mkWorld 3 [1000; 2000]).
Proof.
  refine (X5_success_after_retryable_failures
            (fun k => if (k <? 2)%nat
                      then Rejected (ApiError "Service Unavailable" 503 None None)
                      else Resolved "ok")
            defaultRetries idle 2 "ok" _ _ _).
  - vm_compute. discriminate.
  - intros j Hj. exists (ApiError "Service Unavailable" 503 None None).
    destruct j as [|[|j]]; [split; reflexivity | split; reflexivity | lia].
  - reflexivity.
Defined.

(** X6.  With no retry in hand (a [retries] of 0 or below) the loop makes
    exactly one attempt, arms no timer, and hands back the outcome of that
    attempt whatever it is. *)
Theorem X6_no_budget_single_attempt
    {T} (operation : Operation T) (retries : Z) (w : World) :
  retries <= 0 ->
  withRetry operation retries w = (operation (calls w), invoke w).
Proof.
  intros Hle. destruct (operation (calls w)) as [value | error] eqn:Hop.
  - apply withRetry_resolved, Hop.
  - apply withRetry_stop; [exact Hop|].
    replace (0 <? retries) with false by lia. reflexivity.
Qed.

Lemma X6_no_budget_single_attempt_witness :
  withRetry (fun _ => Rejected (NetworkError "Request timeout") : Outcome unit) 0 idle
  = (Rejected (NetworkError "Request timeout"), invoke idle).
Proof.
  apply (X6_no_budget_single_attempt
           (fun _ => Rejected (NetworkError "Request timeout") : Outcome unit) 0 idle).
  lia.
Defined.

(** X7.  For every integer retry budget, the default and an integer that
    a caller passes alike, the delays that one run arms grow by exactly
    RETRY_DELAY from one retry to the next and none exceeds
    RETRY_DELAY * RETRY_ATTEMPTS; the first one is
    RETRY_DELAY * (defaultRetries - retries + 1). *)
Theorem X7_backoff_steps_for_any_budget
    {T} (operation : Operation T) (retries : Z) (w : World) :
  exists delays : list Z,
    timers (snd (withRetry operation retries w)) = timers w ++ delays
    /\ (forall d, delays !! 0%nat = Some d ->
          d = REQUEST_CONFIG.RETRY_DELAY * (defaultRetries - retries + 1))
    /\ (forall k d d', delays !! k = Some d -> delays !! S k = Some d' ->
          d' = d + REQUEST_CONFIG.RETRY_DELAY)
    /\ (forall k d, delays !! k = Some d ->
          d <= REQUEST_CONFIG.RETRY_DELAY * REQUEST_CONFIG.RETRY_ATTEMPTS).
Proof.
  destruct (withRetry_run operation retries w) as (n & Hn & _ & Htimers & _).
  exists (backoffs retries n). split; [exact Htimers|]. split; [|split].
  - intros d Hd. apply lookup_backoffs in Hd as [_ ->].
    unfold backoff. f_equal. lia.
  - intros k d d' Hd Hd'.
    apply lookup_backoffs in Hd as [_ ->]. apply lookup_backoffs in Hd' as [_ ->].
    unfold backoff, REQUEST_CONFIG.RETRY_DELAY. lia.
  - intros k d Hd. apply lookup_backoffs in Hd as [Hlt ->].
    apply backoff_ceiling. lia.
Qed.
End RetryProperties.

(** ** The query hooks and the pages *)

Section ConnectionCheck.
Import Constants Api Hooks.

(** X8.  [checkConnection] answers [true] exactly when, among the at most
    four attempts of a default request, one succeeds and every attempt
    before it failed with a retryable error; in every case it makes at
    least one and at most four attempts. *)
Theorem X8_checkConnection_true_iff {T} (server : nat -> FetchResult T) (w : World) :
  (fst (checkConnection server w) = true <->
   exists k : nat,
     (k <= 3)%nat
     /\ (exists value, attempt (server (calls w + k)%nat) = Resolved value)
     /\ forall j, (j < k)%nat ->
          exists error, attempt (server (calls w + j)%nat) = Rejected error
                        /\ shouldRetry error = true)
  /\ (calls w < calls (snd (checkConnection server w)) <= calls w + 4)%nat.
Proof.
  unfold checkConnection, get, request. simpl.
  destruct (withRetry_run (fun k => attempt (server k)) defaultRetries w)
    as (n & Hn & Hcalls & _ & Hfst & Hbefore & _).
  change (0 `max` defaultRetries) with 3 in Hn.
  split.
  - split.
    + intros Htrue. exists n. split; [lia|]. split; [|exact Hbefore].
      destruct (withRetry (fun k => attempt (server k)) defaultRetries w)
        as [[value | error] w']; simpl in *; [eauto | discriminate].
    + intros (k & Hk & (value & Hok) & Hfail).
      rewrite (withRetry_after_failures (fun j => attempt (server j)) k
                 defaultRetries w)
        by (try exact Hfail; change (0 `max` defaultRetries) with 3; lia).
      rewrite (withRetry_resolved (fun j => attempt (server j)) _ _ value)
        by exact Hok.
      reflexivity.
  - destruct (withRetry (fun k => attempt (server k)) defaultRetries w)
      as [[value | error] w']; simpl in *; lia.
Qed.
End ConnectionCheck.

Section QueryRetry.
Import Constants Api Hooks.

(** X9.  The hooks' [retry] asks for another try exactly when fewer than 3
    failures have been counted and the error is not an ApiError with a 4xx
    status.  It accepts, while fewer than 3 failures have been counted,
    every error that the client's own [shouldRetry] accepts, and more: an
    ApiError with a status below 400, such as the failure to parse a 2xx
    payload, and any thrown value that is neither an ApiError nor a
    NetworkError, which the client does not retry, are tried again by the
    query layer. *)
Theorem X9_query_retry_characterised (failureCount : Z) (error : ClientError) :
  (DEFAULT_QUERY_OPTIONS.retry failureCount error = true <->
   failureCount < 3
   /\ ~ (exists message status code details,
           error = ApiError message status code details /\ 400 <= status < 500))
  /\ (shouldRetry error = true ->
      DEFAULT_QUERY_OPTIONS.retry failureCount error = (failureCount <? 3))
  /\ (forall message status code details,
        error = ApiError message status code details -> status < 400 ->
        shouldRetry error = false
        /\ DEFAULT_QUERY_OPTIONS.retry failureCount error = (failureCount <? 3))
  /\ (forall message,
        error = OtherError message ->
        shouldRetry error = false
        /\ DEFAULT_QUERY_OPTIONS.retry failureCount error = (failureCount <? 3)).
Proof.
  split; [|split; [|split]].
  - destruct error as [m s c d | m | m]; simpl.
    + destruct ((400 <=? s) && (s <? 500)) eqn:H4.
      * apply andb_true_iff in H4 as [Hlo Hhi].
        apply Z.leb_le in Hlo. apply Z.ltb_lt in Hhi.
        split; [discriminate|]. intros [_ Hnot]. destruct Hnot. eauto 10.
      * rewrite Z.ltb_lt. split; [|tauto]. intros Hlt. split; [exact Hlt|].
        intros (m' & s' & c' & d' & [= _ <- _ _] & Hs).
        apply andb_false_iff in H4 as [H4 | H4]; lia.
    + rewrite Z.ltb_lt. split; [|tauto]. intros Hlt. split; [exact Hlt|].
      intros (m' & s' & c' & d' & [=] & _).
    + rewrite Z.ltb_lt. split; [|tauto]. intros Hlt. split; [exact Hlt|].
      intros (m' & s' & c' & d' & [=] & _).
  - intros Hs. destruct error as [m s c d | m | m]; simpl in *;
      [|reflexivity|discriminate].
    apply Z.leb_le in Hs.
    replace (s <? 500) with false by lia. rewrite andb_false_r. reflexivity.
  - intros m s c d -> Hs. simpl.
    replace (500 <=? s) with false by lia. replace (400 <=? s) with false by lia.
    auto.
  - intros m ->. simpl. auto.
Qed.

(** X10.  For a non-negative attempt index the hooks' [retryDelay] doubles
    from 1000 up to the fourth index, is 30000 from the fifth on, never
    exceeds 30000 and never decreases as the index grows. *)
Theorem X10_retryDelay_doubling_capped (attemptIndex : Z) :
  0 <= attemptIndex ->
  1000 <= DEFAULT_QUERY_OPTIONS.retryDelay attemptIndex <= 30000
  /\ (attemptIndex <= 4 ->
      DEFAULT_QUERY_OPTIONS.retryDelay attemptIndex = 1000 * 2 ^ attemptIndex)
  /\ (5 <= attemptIndex -> DEFAULT_QUERY_OPTIONS.retryDelay attemptIndex = 30000)
  /\ DEFAULT_QUERY_OPTIONS.retryDelay attemptIndex
     <= DEFAULT_QUERY_OPTIONS.retryDelay (attemptIndex + 1).
Proof.
  intros Hpos. unfold DEFAULT_QUERY_OPTIONS.retryDelay.
  assert (forall i, 0 <= i -> 2 ^ i < 2 ^ (i + 1)) as Hstep
    by (intros i Hi; apply Z.pow_lt_mono_r; lia).
  assert (forall i, 5 <= i -> 32 <= 2 ^ i) as Hbig
    by (intros i Hi; change 32 with (2 ^ 5); apply Z.pow_le_mono_r; lia).
  assert (1 <= 2 ^ attemptIndex) as Hone
    by (change 1 with (2 ^ 0); apply Z.pow_le_mono_r; lia).
  assert (attemptIndex <= 4 -> 2 ^ attemptIndex <= 16) as Hsmall
    by (intros Hi; change 16 with (2 ^ 4); apply Z.pow_le_mono_r; lia).
  specialize (Hstep attemptIndex Hpos).
  pose proof (Hbig attemptIndex) as Hbig0.
  repeat split; intros; try specialize (Hbig0 ltac:(lia)); lia.
Qed.

Lemma X10_retryDelay_doubling_capped_witness :
  DEFAULT_QUERY_OPTIONS.retryDelay 2 = 1000 * 2 ^ 2.
Proof.
  refine (proj1 (proj2 (X10_retryDelay_doubling_capped 2 _)) _); lia.
Defined.
End QueryRetry.

Section HookOptions.
Import Constants Hooks.

(** X11.  In each of the four query hooks a key that the caller passes in
    [options] replaces the hook's own value, and a key the caller leaves out
    keeps it: the refresh interval falls back to the hook's interval (the
    defaults spread after it do not touch it), the stale time to 30000 and
    the cache time to 300000, and [enabled] is exactly what the caller
    passed. *)
Theorem X11_caller_options_override (params : option LogsParams) (caller : QueryOptions) :
  Forall
    (fun hook : Query * Z =>
       refetchInterval (options (fst hook))
         = Some (default (snd hook) (refetchInterval caller))
       /\ staleTime (options (fst hook)) = Some (default 30000 (staleTime caller))
       /\ gcTime (options (fst hook)) = Some (default 300000 (gcTime caller))
       /\ enabled (options (fst hook)) = enabled caller)
    [ (useMetrics (Some caller), 5000);
      (useServices (Some caller), 10000);
      (useLogs params (Some caller), 15000);
      (useSystemStatus (Some caller), 30000) ].
Proof.
  destruct caller as [[interval|] [stale|] [gc|] [en|]];
    repeat constructor.
Qed.

(** X12.  The keys of the query string of [useLogs] always come in the
    order limit, level, service, offset, each at most once: they form a
    sublist of these four, so there are never more than four entries and no
    key is repeated. *)
Theorem X12_logs_keys_ordered_once (params : LogsParams) :
  sublist (List.map fst (logsQueryParams params)) ["limit"; "level"; "service"; "offset"]
  /\ NoDup (List.map fst (logsQueryParams params))
  /\ (length (logsQueryParams params) <= 4)%nat.
Proof.
  assert (sublist (List.map fst (logsQueryParams params))
                  ["limit"; "level"; "service"; "offset"]) as Hsub.
  { unfold logsQueryParams. cbv zeta.
    destruct (truthy_number (limit params)), (truthy_string (level params)),
      (truthy_string (service params)), (truthy_number (offset params));
      simpl;
      repeat first [apply sublist_nil | apply sublist_skip | apply sublist_cons]. }
  split; [exact Hsub|]. split.
  - eapply sublist_NoDup; [|exact Hsub].
    apply (bool_decide_unpack _). vm_compute. reflexivity.
  - apply sublist_length in Hsub. rewrite length_map in Hsub. exact Hsub.
Qed.

Lemma string_app_nil_r (s : string) : s +:+ "" = s.
Proof.
  induction s as [|c s IH]; [reflexivity|].
  change (String c s +:+ "") with (String c (s +:+ "")). rewrite IH. reflexivity.
Qed.

(** X16.  The Logs page always asks for at most 50 records and never sends
    an offset: its request URL is [/logs/?limit=50], followed by
    [&level=...] when a level filter is set and by [&service=...] when a
    service filter is set, the filter text being URL-encoded; with the
    filters cleared it is exactly [/logs/?limit=50]. *)
Theorem X16_logs_page_endpoint (levelFilter serviceFilter : string) :
  endpoint (LogsPage.logsQuery levelFilter serviceFilter)
  = "/logs/?limit=50"
    +:+ (if String.eqb levelFilter "" then "" else "&level=" +:+ urlencode levelFilter)
    +:+ (if String.eqb serviceFilter "" then ""
         else "&service=" +:+ urlencode serviceFilter)
  /\ endpoint (LogsPage.logsQuery (fst LogsPage.clearFilters) (snd LogsPage.clearFilters))
     = "/logs/?limit=50".
Proof.
  split; [|vm_compute; reflexivity].
  unfold LogsPage.logsQuery, LogsPage.or_undefined, useLogs, logsQueryParams.
  cbv zeta. simpl default. simpl limit. simpl level. simpl service. simpl offset.
  destruct (String.eqb levelFilter "") eqn:El;
    destruct (String.eqb serviceFilter "") eqn:Es;
    simpl; rewrite ?El, ?Es, ?string_app_nil_r; vm_compute; reflexivity.
Qed.
End HookOptions.

Section UrlEncoding.
Import Constants Hooks.

Local Abbreviation chars := list_ascii_of_string.

Lemma chars_app (a b : string) : chars (a +:+ b) = chars a ++ chars b.
Proof.
  induction a as [|c a IH]; [reflexivity|].
  change (String c a +:+ b) with (String c (a +:+ b)). simpl. rewrite IH. reflexivity.
Qed.

Lemma chars_inj (a b : string) : chars a = chars b -> a = b.
Proof.
  intros H. rewrite <- (string_of_list_ascii_of_string a),
    <- (string_of_list_ascii_of_string b), H. reflexivity.
Qed.

Lemma hex_digit_kept (n : nat) : kept (hex_digit n) = true.
Proof. do 17 (destruct n as [|n]; [reflexivity|]). reflexivity. Qed.

Lemma hex_digit_inj (a b : nat) :
  (a < 16)%nat -> (b < 16)%nat -> hex_digit a = hex_digit b -> a = b.
Proof.
  intros Ha Hb.
  do 16 (destruct a as [|a];
         [do 16 (destruct b as [|b];
                 [intros H; cbv in H; first [reflexivity | discriminate H]|]); lia|]).
  lia.
Qed.

Lemma chars_encode_byte (c : ascii) :
  chars (encode_byte c)
  = if kept c then [c]
    else if Ascii.eqb c " " then ["+"%char]
    else ["%"%char; hex_digit (nat_of_ascii c / 16); hex_digit (nat_of_ascii c mod 16)].
Proof. unfold encode_byte. destruct (kept c), (Ascii.eqb c " "); reflexivity. Qed.

Lemma chars_urlencode_cons (c : ascii) (s : string) :
  chars (urlencode (String c s)) = chars (encode_byte c) ++ chars (urlencode s).
Proof. simpl. apply chars_app. Qed.

Lemma urlencode_alphabet (s : string) (c : ascii) :
  c ∈ chars (urlencode s) -> kept c = true \/ c = "+"%char \/ c = "%"%char.
Proof.
  intros Hin. induction s as [|a s IH]; [inversion Hin|].
  rewrite chars_urlencode_cons, chars_encode_byte in Hin.
  apply elem_of_app in Hin as [Hin | Hin]; [|auto].
  destruct (kept a) eqn:Ha; [|destruct (Ascii.eqb a " ")].
  - apply list_elem_of_singleton in Hin as ->. auto.
  - apply list_elem_of_singleton in Hin as ->. auto.
  - repeat (apply elem_of_cons in Hin as [-> | Hin]);
      auto using hex_digit_kept. inversion Hin.
Qed.

(** X13.  Every character of an encoded name or value is an ASCII letter
    or digit or one of [* - . _ + %]; in particular the separators [&] and
    [=] and the characters [?], [#], [/] and the space never occur in it. *)
Theorem X13_urlencode_safe_alphabet (s : string) (c : ascii) :
  c ∈ chars (urlencode s) ->
  (kept c = true \/ c = "+"%char \/ c = "%"%char)
  /\ c <> "&"%char /\ c <> "="%char /\ c <> "?"%char /\ c <> "#"%char
  /\ c <> "/"%char /\ c <> " "%char.
Proof.
  intros Hin. pose proof (urlencode_alphabet s c Hin) as Hsafe.
  split; [exact Hsafe|].
  repeat split; intros ->; destruct Hsafe as [H | [H | H]]; discriminate H.
Qed.

Lemma X13_urlencode_safe_alphabet_witness :
  "1"%char <> "&"%char.
Proof.
  refine (proj1 (proj2 (X13_urlencode_safe_alphabet "a&b=1" "1"%char _))).
  vm_compute. do 8 apply list_elem_of_further. apply list_elem_of_here.
Defined.

Lemma encode_byte_prefix_inj (c c' : ascii) (x y : list ascii) :
  chars (encode_byte c) ++ x = chars (encode_byte c') ++ y -> c = c' /\ x = y.
Proof.
  rewrite !chars_encode_byte.
  destruct (kept c) eqn:Hc, (kept c') eqn:Hc'; cbn [app].
  - intros [= -> ->]. auto.
  - destruct (Ascii.eqb c' " "); cbn [app]; intros [= -> _]; discriminate Hc.
  - destruct (Ascii.eqb c " "); cbn [app]; intros [= <- _]; discriminate Hc'.
  - destruct (Ascii.eqb c " ") eqn:Es, (Ascii.eqb c' " ") eqn:Es'; cbn [app];
      try (intros [=]; fail).
    + apply Ascii.eqb_eq in Es, Es'. intros [= ->]. subst. auto.
    + intros [= Hhi Hlo ->]. split; [|reflexivity].
      change (hex_digit (nat_of_ascii c / 16) = hex_digit (nat_of_ascii c' / 16)) in Hhi.
      change (hex_digit (nat_of_ascii c mod 16) = hex_digit (nat_of_ascii c' mod 16))
        in Hlo.
      pose proof (nat_ascii_bounded c) as Hb. pose proof (nat_ascii_bounded c') as Hb'.
      apply hex_digit_inj in Hhi;
        [|apply Nat.Div0.div_lt_upper_bound; lia..].
      apply hex_digit_inj in Hlo; [|apply Nat.mod_upper_bound; lia..].
      rewrite <- (ascii_nat_embedding c), <- (ascii_nat_embedding c').
      f_equal.
      rewrite (Nat.div_mod_eq (nat_of_ascii c) 16),
        (Nat.div_mod_eq (nat_of_ascii c') 16), Hhi, Hlo.
      reflexivity.
Qed.

Lemma urlencode_injective (s t : string) : urlencode s = urlencode t -> s = t.
Proof.
  intros H. apply (f_equal chars) in H. revert t H.
  induction s as [|c s IH]; intros [|c' t] H.
  - reflexivity.
  - rewrite chars_urlencode_cons, chars_encode_byte in H. simpl in H.
    destruct (kept c'); [discriminate|]. destruct (Ascii.eqb c' " "); discriminate.
  - rewrite chars_urlencode_cons, chars_encode_byte in H. simpl in H.
    destruct (kept c); [discriminate|]. destruct (Ascii.eqb c " "); discriminate.
  - rewrite !chars_urlencode_cons in H.
    apply encode_byte_prefix_inj in H as [-> H]. f_equal. auto.
Qed.

(** X14.  URL-encoding loses nothing of the bytes it is given: two
    different byte strings (the UTF-8 bytes of two different texts) never
    have the same encoding. *)
Theorem X14_urlencode_injective (s t : string) :
  s <> t -> urlencode s <> urlencode t.
Proof. intros Hne Heq. apply Hne, urlencode_injective, Heq. Qed.

Lemma X14_urlencode_injective_witness :
  urlencode "a b" <> urlencode "a+b".
Proof. apply (X14_urlencode_injective "a b" "a+b"). discriminate. Defined.

Lemma app_separator_inj {A} (sep : A) (u u' x x' : list A) :
  sep ∉ u -> sep ∉ u' -> u ++ sep :: x = u' ++ sep :: x' -> u = u' /\ x = x'.
Proof.
  revert u'. induction u as [|a u IH]; intros [|a' u'] Hu Hu' H; simpl in H.
  - injection H as ->. auto.
  - injection H as -> _. destruct Hu'. apply list_elem_of_here.
  - injection H as -> _. destruct Hu. apply list_elem_of_here.
  - injection H as -> H. apply IH in H as [-> ->]; [auto| |].
    + intros Hin. apply Hu. apply list_elem_of_further, Hin.
    + intros Hin. apply Hu'. apply list_elem_of_further, Hin.
Qed.

Lemma urlencode_no_separator (s : string) :
  ("="%char ∉ chars (urlencode s)) /\ ("&"%char ∉ chars (urlencode s)).
Proof.
  split; intros Hin; apply urlencode_alphabet in Hin as [H | [H | H]]; discriminate H.
Qed.

Lemma chars_serialize_cons (name value : string) (rest : URLSearchParams) :
  chars (serialize ((name, value) :: rest))
  = chars (urlencode name)
    ++ ("="%char ::
        (chars (urlencode value)
         ++ match rest with
            | [] => []
            | _ :: _ => "&"%char :: chars (serialize rest)
            end)).
Proof.
  destruct rest as [|entry rest]; cbn [serialize].
  - rewrite !chars_app, app_nil_r. reflexivity.
  - destruct entry as [name' value']. rewrite !chars_app. reflexivity.
Qed.

(** X15.  The query string determines the parameters: two lists of
    entries that serialize to the same string are the same list, entry by
    entry, so no filter text can pass for another parameter or split into
    several. *)
Theorem X15_serialize_injective (queryParams queryParams' : URLSearchParams) :
  serialize queryParams = serialize queryParams' -> queryParams = queryParams'.
Proof.
  intros H. apply (f_equal chars) in H. revert queryParams' H.
  induction queryParams as [|[name value] rest IH];
    intros [|[name' value'] rest'] H.
  - reflexivity.
  - rewrite chars_serialize_cons in H. simpl in H.
    destruct (chars (urlencode name')); discriminate H.
  - rewrite chars_serialize_cons in H. simpl in H.
    destruct (chars (urlencode name)); discriminate H.
  - rewrite !chars_serialize_cons in H.
    apply app_separator_inj in H as [Hname H];
      try apply urlencode_no_separator.
    apply chars_inj, urlencode_injective in Hname as ->.
    destruct rest as [|entry rest], rest' as [|entry' rest'].
    + rewrite !app_nil_r in H.
      apply chars_inj, urlencode_injective in H as ->. reflexivity.
    + rewrite app_nil_r in H.
      destruct (proj2 (urlencode_no_separator value)).
      rewrite H. apply elem_of_app. right. apply list_elem_of_here.
    + rewrite app_nil_r in H.
      destruct (proj2 (urlencode_no_separator value')).
      rewrite <- H. apply elem_of_app. right. apply list_elem_of_here.
    + apply app_separator_inj in H as [Hvalue H];
        try apply urlencode_no_separator.
      apply chars_inj, urlencode_injective in Hvalue as ->.
      apply chars_inj in H. f_equal. apply IH. rewrite H. reflexivity.
Qed.

Lemma X15_serialize_injective_witness :
  [("level", "a&limit=1")] = [("level", "a&limit=1")].
Proof.
  apply (X15_serialize_injective [("level", "a&limit=1")] [("level", "a&limit=1")]).
  reflexivity.
Defined.
End UrlEncoding.

(** ** The metrics transformation *)

Section MetricProperties.
Import Types.

(** X17.  [getMetricStatus] cuts the values into three regions with strict
    comparisons: critical exactly above the critical threshold, warning
    exactly above the warning threshold up to and including the critical
    one, healthy otherwise, so a value equal to a threshold stays on the
    milder side.  When the critical threshold is not above the warning
    threshold no value is ever reported as warning. *)
Theorem X17_getMetricStatus_regions (value criticalThreshold warningThreshold : Q) :
  (getMetricStatus value criticalThreshold warningThreshold = critical
   <-> (criticalThreshold < value)%Q)
  /\ (getMetricStatus value criticalThreshold warningThreshold = warning
      <-> (value <= criticalThreshold)%Q /\ (warningThreshold < value)%Q)
  /\ (getMetricStatus value criticalThreshold warningThreshold = healthy
      <-> (value <= criticalThreshold)%Q /\ (value <= warningThreshold)%Q)
  /\ ((criticalThreshold <= warningThreshold)%Q ->
      getMetricStatus value criticalThreshold warningThreshold <> warning).
Proof.
  unfold getMetricStatus.
  destruct (gt value criticalThreshold) eqn:Hc;
    [apply gt_true in Hc | apply gt_false in Hc];
    (destruct (gt value warningThreshold) eqn:Hw;
     [apply gt_true in Hw | apply gt_false in Hw]).
  all: repeat split; intros; try discriminate; try assumption;
    repeat match goal with H : _ /\ _ |- _ => destruct H end;
    try match goal with
        | H1 : (?a < ?b)%Q, H2 : (?b <= ?a)%Q |- _ => destruct (Qlt_not_le _ _ H1 H2)
        end;
    try reflexivity.
  exfalso. eapply Qlt_not_le; [exact Hw|]. eapply Qle_trans; eassumption.
Qed.

(** X18.  Whatever the response holds, the transformation yields five
    metrics with five different names, all stamped with the timestamp of
    the response; Network Traffic is never reported critical (warning above
    1000, healthy otherwise) and Container Count is always reported
    healthy. *)
Theorem X18_transform_shape (apiResponse : MetricsApiResponse) :
  length (transformMetricsResponse apiResponse) = 5%nat
  /\ NoDup (List.map name (transformMetricsResponse apiResponse))
  /\ Forall (fun m => timestamp m = Some (response_timestamp apiResponse))
            (transformMetricsResponse apiResponse)
  /\ Forall (fun m =>
               (name m = "Network Traffic" ->
                status m <> critical
                /\ (status m = warning <-> (1000 < value m)%Q))
               /\ (name m = "Container Count" -> status m = healthy))
            (transformMetricsResponse apiResponse).
Proof.
  split; [reflexivity|]. split.
  { apply (bool_decide_unpack _). vm_compute. reflexivity. }
  split; [repeat constructor|].
  unfold transformMetricsResponse.
  repeat (apply Forall_cons; split); try apply Forall_nil;
    simpl; (split; intros Hname; try discriminate Hname); [|reflexivity].
  destruct (gt (network_traffic apiResponse) 1000) eqn:Hgt.
  - apply gt_true in Hgt. split; [discriminate|]. tauto.
  - apply gt_false in Hgt. split; [discriminate|].
    split; [discriminate|]. intros H. destruct (Qlt_not_le _ _ H Hgt).
Qed.

(** X19.  [getHealthStatus] is [getMetricStatus] with thresholds 90 and 70
    read upside down: on every value the two ranks add up to 2, so a health
    score is critical where a load of the same value would be healthy and
    the other way round. *)
Theorem X19_health_status_mirrors_metric_status (value : Q) :
  (severity (getHealthStatus value) + severity (getMetricStatus value 90 70) = 2)%nat.
Proof.
  unfold getHealthStatus, getMetricStatus.
  destruct (gt value 90), (gt value 70); reflexivity.
Qed.
End MetricProperties.

(** ** The document title *)

Section TitleProperties.
Import Main.

Lemma setTitle_includes (newTitle : string) :
  includes (setTitle newTitle) "CloudPulse" = true.
Proof.
  unfold setTitle.
  destruct (includes newTitle "CloudPulse") eqn:Hin; simpl; [exact Hin|].
  destruct (String.eqb newTitle "CloudPulse Monitor") eqn:Heq; [|reflexivity].
  apply String.eqb_eq in Heq. subst newTitle. discriminate Hin.
Qed.

(** X20.  After main.tsx has installed its setter, whatever series of
    titles is assigned, the title stored in the document always contains
    'CloudPulse': an assigned title that contains it is stored as it is, any
    other is replaced by 'CloudPulse Monitor', and the stored title depends
    on the last assignment only. *)
Theorem X20_title_always_contains_CloudPulse (assigned : list string) :
  includes (assignTitles assigned initialTitle) "CloudPulse" = true
  /\ (forall earlier newTitle stored,
        assignTitles (earlier ++ [newTitle]) stored
        = if includes newTitle "CloudPulse" then newTitle else "CloudPulse Monitor").
Proof.
  assert (forall earlier newTitle stored,
            assignTitles (earlier ++ [newTitle]) stored = setTitle newTitle) as Hlast.
  { intros earlier newTitle stored. unfold assignTitles.
    rewrite fold_left_app. reflexivity. }
  split.
  - destruct assigned as [|t assigned _] using rev_ind; [reflexivity|].
    rewrite Hlast. apply setTitle_includes.
  - intros earlier newTitle stored. rewrite Hlast. unfold setTitle.
    destruct (includes newTitle "CloudPulse") eqn:Hin; [reflexivity|]. simpl.
    destruct (String.eqb newTitle "CloudPulse Monitor") eqn:Heq; [|reflexivity].
    apply String.eqb_eq in Heq. subst newTitle. discriminate Hin.
Qed.
End TitleProperties.

(** ** More on the services table *)

Section TableProperties.
Import Db.

(** X21.  After any session of statements, every row of the services table
    has one of the three statuses online, degraded or offline. *)
Theorem X21_stored_status_is_known
    (session : list (Z * Statement)) (id : string) (row : Service) :
  run session created !! id = Some row ->
  status row ∈ ["online"; "degraded"; "offline"].
Proof.
  intros Hrow.
  pose proof (run_consistent session created consistent_created id row Hrow) as Hc.
  unfold constraints in Hc.
  apply andb_true_iff in Hc as [Hc _]. apply andb_true_iff in Hc as [_ Hc].
  unfold check_status in Hc. apply bool_decide_eq_true in Hc. exact Hc.
Qed.

Lemma X21_stored_status_is_known_witness :
  "degraded" ∈ ["online"; "degraded"; "offline"].
Proof.
  refine (X21_stored_status_is_known
    (seed 0 ++ [ (5, Update "file-storage" (Some "degraded") None (Some 5));
                 (9, Update "file-storage" (Some "broken") None (Some 9)) ])
    "file-storage"
    (mkService "File Storage" "degraded" (Some 9999) 5 0 5) _).
  vm_compute. reflexivity.
Defined.

Lemma round_half_away_bounds (q : Q) :
  (0 <= Qnum q ->
   0 <= round_half_away q
   /\ 2 * Zpos (Qden q) * round_half_away q <= 2 * Qnum q + Zpos (Qden q)
      < 2 * Zpos (Qden q) * round_half_away q + 2 * Zpos (Qden q))
  /\ (Qnum q < 0 ->
      round_half_away q <= 0
      /\ 2 * Zpos (Qden q) * (- round_half_away q) <= - 2 * Qnum q + Zpos (Qden q)
         < 2 * Zpos (Qden q) * (- round_half_away q) + 2 * Zpos (Qden q)).
Proof.
  unfold round_half_away. destruct q as [a b]. simpl.
  set (D := Zpos b). assert (0 < D) by (unfold D; lia).
  set (k := (2 * Z.abs a + D) / (2 * D)).
  assert (2 * D * k <= 2 * Z.abs a + D < 2 * D * k + 2 * D) as Hk.
  { pose proof (Z.div_mod (2 * Z.abs a + D) (2 * D) ltac:(lia)) as Hdm.
    pose proof (Z.mod_pos_bound (2 * Z.abs a + D) (2 * D) ltac:(lia)) as Hmod.
    fold k in Hdm. lia. }
  assert (0 <= k) by (apply Z.div_pos; lia).
  split; intros Ha.
  - destruct (Z.eq_dec a 0) as [-> | Hne].
    + simpl. assert (k = 0) by nia. lia.
    + assert (Z.sgn a = 1) as -> by lia. lia.
  - assert (Z.sgn a = -1) as -> by lia. lia.
Qed.

Lemma times_100 (q : Q) :
  Qnum (q * 100)%Q = Qnum q * 100 /\ Qden (q * 100)%Q = Qden q.
Proof. destruct q as [a b]. simpl. rewrite Pos.mul_1_r. auto. Qed.

Lemma to_decimal_5_2_exact (hundredths : Z) :
  Z.abs hundredths < 100000 ->
  to_decimal_5_2 (hundredths # 100) = Some hundredths.
Proof.
  intros Hsmall. unfold to_decimal_5_2.
  assert (round_half_away ((hundredths # 100) * 100)%Q = hundredths) as ->.
  { destruct (round_half_away_bounds ((hundredths # 100) * 100)%Q) as [Hpos Hneg].
    destruct (times_100 (hundredths # 100)) as [-> ->] in Hpos, Hneg.
    simpl in Hpos, Hneg.
    destruct (Z_lt_le_dec hundredths 0) as [Hlt | Hge].
    - specialize (Hneg ltac:(lia)). lia.
    - specialize (Hpos ltac:(lia)). lia. }
  replace (Z.abs hundredths <? 100000) with true by lia. reflexivity.
Qed.

(** X22.  An UPDATE that sets the uptime of an existing row to a value
    with at most two decimals between 0 and 100 succeeds and stores exactly
    that value: the row read back has that uptime, its other columns as
    they were, and [updated_at] the instant of the statement; no other row
    changes. *)
Theorem X22_two_decimals_stored_exactly
    (now : Z) (id : string) (hundredths : Z) (table : Table) (old : Service) :
  table !! id = Some old ->
  constraints id old = true ->
  0 <= hundredths <= 10000 ->
  exists table',
    exec now (Update id None (Some (Some (hundredths # 100))) None) table = Some table'
    /\ table' !! id
       = Some (mkService (name old) (status old) (Some hundredths)
                         (last_checked old) (created_at old) now)
    /\ (forall other, other <> id -> table' !! other = table !! other).
Proof.
  intros Hold Hc Hrange.
  unfold exec. cbv beta iota. rewrite Hold.
  unfold coerce_uptime. rewrite (to_decimal_5_2_exact hundredths) by lia.
  simpl. unfold store, constraints in *. simpl.
  apply andb_true_iff in Hc as [Hc _]. rewrite Hc. simpl.
  replace (0 <=? hundredths) with true by lia.
  replace (hundredths <=? 10000) with true by lia. simpl.
  eexists. split; [reflexivity|]. split.
  - apply lookup_insert_eq.
  - intros other Hne. apply lookup_insert_ne. congruence.
Qed.

Lemma X22_two_decimals_stored_exactly_witness :
  exists table',
    exec 7 (Update "file-storage" None (Some (Some (9724 # 100))) None)
         (run (seed 0) created) = Some table'
    /\ table' !! "file-storage"
       = Some (mkService "File Storage" "online" (Some 9724) 0 0 7).
Proof.
  destruct (X22_two_decimals_stored_exactly 7 "file-storage" 9724
              (run (seed 0) created)
              (mkService "File Storage" "online" (Some 9999) 0 0 0))
    as (table' & Hexec & Hrow & _).
  - vm_compute. reflexivity.
  - vm_compute. reflexivity.
  - lia.
  - exists table'. split; [exact Hexec | exact Hrow].
Defined.

(** X23.  Whatever value is coerced to DECIMAL(5,2), the value stored
    differs from it by at most half a hundredth (0.005). *)
Theorem X23_rounding_error_at_most_half_hundredth (q : Q) (hundredths : Z) :
  to_decimal_5_2 q = Some hundredths ->
  ((hundredths # 100) - (1 # 200) <= q)%Q /\ (q <= (hundredths # 100) + (1 # 200))%Q.
Proof.
  unfold to_decimal_5_2.
  destruct (Z.abs (round_half_away (q * 100)%Q) <? 100000); [|discriminate].
  intros [= <-].
  destruct (round_half_away_bounds (q * 100)%Q) as [Hpos Hneg].
  destruct (times_100 q) as [Hn Hd]. rewrite Hn, Hd in Hpos, Hneg.
  set (r := round_half_away (q * 100)%Q) in *.
  destruct q as [a b]. unfold Qle, Qplus, Qminus, Qopp. simpl in *.
  destruct (Z_lt_le_dec a 0) as [Hlt | Hge].
  - specialize (Hneg ltac:(lia)). lia.
  - specialize (Hpos ltac:(lia)). lia.
Qed.

Lemma X23_rounding_error_at_most_half_hundredth_witness :
  ((10000 # 100) - (1 # 200) <= 100.004)%Q /\ (100.004 <= (10000 # 100) + (1 # 200))%Q.
Proof.
  apply (X23_rounding_error_at_most_half_hundredth 100.004%Q 10000).
  vm_compute. reflexivity.
Defined.

Lemma uptime_accepted_iff (q : Q) :
  (exists stored, coerce_uptime (Some q) = Some stored /\ check_uptime stored = true)
  <-> (- (1 # 200) < q)%Q /\ (q < 20001 # 200)%Q.
Proof.
  unfold coerce_uptime, to_decimal_5_2.
  destruct (round_half_away_bounds (q * 100)%Q) as [Hpos Hneg].
  destruct (times_100 q) as [Hn Hd]. rewrite Hn, Hd in Hpos, Hneg.
  set (r := round_half_away (q * 100)%Q) in *.
  destruct q as [a b]. unfold Qlt. simpl in *.
  set (D := Zpos b) in *. assert (0 < D) by (unfold D; lia).
  split.
  - intros (stored & Hstored & Hcheck).
    destruct (Z.abs r <? 100000); [|discriminate].
    simpl in Hstored. injection Hstored as <-. simpl in Hcheck.
    apply andb_true_iff in Hcheck as [Hlo Hhi].
    apply Z.leb_le in Hlo, Hhi.
    destruct (Z_lt_le_dec a 0) as [Hlt | Hge].
    + specialize (Hneg ltac:(lia)). assert (r = 0) as Hr by lia.
      rewrite Hr in Hneg. lia.
    + specialize (Hpos ltac:(lia)). nia.
  - intros [Hlo Hhi].
    assert (0 <= r <= 10000) as Hr.
    { destruct (Z_lt_le_dec a 0) as [Hlt | Hge].
      - specialize (Hneg ltac:(lia)). nia.
      - specialize (Hpos ltac:(lia)). nia. }
    replace (Z.abs r <? 100000) with true by lia.
    exists (Some r). simpl. split; [reflexivity|]. lia.
Qed.

(** X24.  An UPDATE that sets the uptime of an existing row to a number is
    accepted exactly when the number lies strictly between -0.005 and
    100.005: the value is first rounded to two decimals and then checked
    against [0, 100], so 100.004 is stored as 100.00 while 100.005 and
    -0.005 are refused. *)
Theorem X24_uptime_update_accepted_window
    (now : Z) (id : string) (q : Q) (table : Table) (old : Service) :
  table !! id = Some old ->
  constraints id old = true ->
  (is_Some (exec now (Update id None (Some (Some q)) None) table)
   <-> (- (1 # 200) < q)%Q /\ (q < 20001 # 200)%Q).
Proof.
  intros Hold Hc. rewrite <- uptime_accepted_iff.
  unfold exec. cbv beta iota. rewrite Hold.
  unfold constraints in Hc.
  apply andb_true_iff in Hc as [Hc _].
  destruct (coerce_uptime (Some q)) as [stored|] eqn:Hco; simpl.
  - unfold store, constraints. simpl. rewrite Hc. simpl.
    destruct (check_uptime stored) eqn:Hcheck.
    + split; [eauto | intros _; eexists; reflexivity].
    + split; [intros [? [=]] | intros (stored' & [= <-] & Hch); congruence].
  - split; [intros [? [=]] | intros (stored' & [=] & _)].
Qed.

Lemma X24_uptime_update_accepted_window_witness :
  is_Some (exec 7 (Update "file-storage" None (Some (Some 100.004%Q)) None)
             (run (seed 0) created)).
Proof.
  refine (proj2 (X24_uptime_update_accepted_window 7 "file-storage" 100.004%Q
                   (run (seed 0) created)
                   (mkService "File Storage" "online" (Some 9999) 0 0 0) _ _) _).
  - vm_compute. reflexivity.
  - vm_compute. reflexivity.
  - split; unfold Qlt; simpl; lia.
Defined.
End TableProperties.
